(** * agent_mcp.oauth: token storage, OAuth callback receiver, ensure_oauth_token

    A shallow embedding of [src/src/agent_mcp/oauth.py].

    - Python strings are Rocq [string]s, read as their UTF-8 byte sequence.
    - A JSON document is represented by the value [json.loads] yields on it;
      Python dicts are association lists with unique keys, in insertion
      order.
    - Python exceptions are the constructors of [exn]; fallible code returns
      [result]. *)

From Stdlib Require Import String Ascii List ZArith Bool Lia.
Import ListNotations.
Open Scope string_scope.
Open Scope list_scope.
Set Warnings "-register-all".

(** ** Python values *)

Inductive exn : Type :=
| FileNotFoundError
| OSError
| UnicodeDecodeError
| JSONDecodeError
| AttributeError
| TypeError
| ValidationError
| ValueError
| RuntimeError (msg : string)
| ProviderError (msg : string).

Inductive result (A : Type) : Type :=
| Ok (a : A)
| Err (e : exn).
Arguments Ok {A} a.
Arguments Err {A} e.

Notation "'let*' x ':=' m 'in' f" :=
  (match m with Ok x => f | Err e => Err e end)
  (at level 200, x name, m at level 100, f at level 200).

(** Values produced by [json.loads] (floats are left out: no field used
    here is a float). *)
Inductive json : Type :=
| JNull
| JBool (b : bool)
| JInt (z : Z)
| JStr (s : string)
| JArr (l : list json)
| JObj (kv : list (string * json)).

(** [d.get(k)] on a Python dict. *)
Fixpoint dict_get (k : string) (d : list (string * json)) : option json :=
  match d with
  | [] => None
  | (k', v) :: d' => if String.eqb k k' then Some v else dict_get k d'
  end.

(** [d[k] = v] on a Python dict: an existing key keeps its position, a new
    key is appended. *)
Fixpoint dict_set (k : string) (v : json) (d : list (string * json))
  : list (string * json) :=
  match d with
  | [] => [(k, v)]
  | (k', v') :: d' =>
      if String.eqb k k' then (k', v) :: d' else (k', v') :: dict_set k v d'
  end.

(** [value.get(k)]: only a dict has a [get] method. *)
Definition py_get (v : json) (k : string) : result (option json) :=
  match v with
  | JObj kv => Ok (dict_get k kv)
  | _ => Err AttributeError
  end.

(** [value[k] = x]: item assignment with a string key only succeeds on a
    dict (a list wants an integer index; str, int, bool and None refuse item
    assignment). *)
Definition py_setitem (v : json) (k : string) (x : json) : result json :=
  match v with
  | JObj kv => Ok (JObj (dict_set k x kv))
  | _ => Err TypeError
  end.

(** ** ASCII [str.title()] (used by the [token_type] validator) *)

Definition is_upper (c : ascii) : bool :=
  let n := nat_of_ascii c in (65 <=? n)%nat && (n <=? 90)%nat.
Definition is_lower (c : ascii) : bool :=
  let n := nat_of_ascii c in (97 <=? n)%nat && (n <=? 122)%nat.
Definition to_upper (c : ascii) : ascii :=
  if is_lower c then ascii_of_nat (nat_of_ascii c - 32) else c.
Definition to_lower (c : ascii) : ascii :=
  if is_upper c then ascii_of_nat (nat_of_ascii c + 32) else c.

Fixpoint title_from (prev_cased : bool) (s : string) : string :=
  match s with
  | EmptyString => EmptyString
  | String c s' =>
      if is_upper c || is_lower c then
        String (if prev_cased then to_lower c else to_upper c) (title_from true s')
      else String c (title_from false s')
  end.

Definition title (s : string) : string := title_from false s.

(** ** Pydantic models *)

(** [OAuthToken]: [token_type] is [Literal["Bearer"]]. *)
Inductive token_type_lit : Type := Bearer.

Record credential : Type := mkCredential {
  access_token : string;
  token_type : token_type_lit;
  expires_in : option Z;
  scope : option string;
  refresh_token : option string
}.

(** [OAuthClientInformationFull], restricted to the registration fields the
    spec names; the further optional client metadata fields are handled the
    same way as [client_secret]. *)
Record client_info : Type := mkClientInfo {
  client_id : string;
  client_secret : option string;
  redirect_uris : list string
}.

Definition dump_opt_str (o : option string) : json :=
  match o with Some s => JStr s | None => JNull end.
Definition dump_opt_int (o : option Z) : json :=
  match o with Some z => JInt z | None => JNull end.

(** [tokens.model_dump()], fields in declaration order. *)
Definition credential_dump (c : credential) : json :=
  JObj [("access_token", JStr (access_token c));
        ("token_type", JStr "Bearer");
        ("expires_in", dump_opt_int (expires_in c));
        ("scope", dump_opt_str (scope c));
        ("refresh_token", dump_opt_str (refresh_token c))].

(** [client_info.model_dump(mode="json")]. *)
Definition client_info_dump (ci : client_info) : json :=
  JObj [("redirect_uris", JArr (map JStr (redirect_uris ci)));
        ("client_id", JStr (client_id ci));
        ("client_secret", dump_opt_str (client_secret ci))].

(** Validation of optional fields: a missing key or [null] gives [None]. *)
Definition validate_opt_str (o : option json) : option (option string) :=
  match o with
  | None | Some JNull => Some None
  | Some (JStr s) => Some (Some s)
  | Some _ => None
  end.

Definition validate_opt_int (o : option json) : option (option Z) :=
  match o with
  | None | Some JNull => Some None
  | Some (JInt z) => Some (Some z)
  | Some _ => None
  end.

(** [token_type]: the default ["Bearer"] when missing; otherwise the
    [normalize_token_type] validator applies [str.title()] before the
    [Literal["Bearer"]] check. *)
Definition validate_token_type (o : option json) : option token_type_lit :=
  match o with
  | None => Some Bearer
  | Some (JStr s) => if String.eqb (title s) "Bearer" then Some Bearer else None
  | Some _ => None
  end.

(** [OAuthToken.model_validate(raw)]: [None] stands for a raised
    validation error. Pydantic's lax coercions (e.g. numeric strings for
    [expires_in]) are not modelled; every dumped value is in strict form. *)
Definition credential_validate (raw : json) : option credential :=
  match raw with
  | JObj kv =>
      match dict_get "access_token" kv, validate_token_type (dict_get "token_type" kv),
            validate_opt_int (dict_get "expires_in" kv),
            validate_opt_str (dict_get "scope" kv),
            validate_opt_str (dict_get "refresh_token" kv) with
      | Some (JStr a), Some ty, Some ei, Some sc, Some rt =>
          Some (mkCredential a ty ei sc rt)
      | _, _, _, _, _ => None
      end
  | _ => None
  end.

Fixpoint validate_str_list (l : list json) : option (list string) :=
  match l with
  | [] => Some []
  | JStr s :: l' =>
      match validate_str_list l' with Some r => Some (s :: r) | None => None end
  | _ :: _ => None
  end.

(** [OAuthClientInformationFull.model_validate(raw)]. *)
Definition client_info_validate (raw : json) : option client_info :=
  match raw with
  | JObj kv =>
      match dict_get "client_id" kv, validate_opt_str (dict_get "client_secret" kv),
            dict_get "redirect_uris" kv with
      | Some (JStr cid), Some sec, Some (JArr us) =>
          match validate_str_list us with
          | Some (u :: us') => Some (mkClientInfo cid sec (u :: us'))
          | _ => None
          end
      | _, _, _ => None
      end
  | _ => None
  end.

(** ** FileTokenStorage *)

(** What [self._path.read_text()] followed by [json.loads] meets in the
    record file [<token_dir>/<server_name>.json]. *)
Inductive file_content : Type :=
| FAbsent                 (** [FileNotFoundError] *)
| FUnreadable             (** any other [OSError], e.g. permission denied *)
| FUndecodable            (** bytes that are not valid UTF-8 text *)
| FMalformed              (** text that is not JSON: [JSONDecodeError] *)
| FJson (v : json).       (** a JSON document, as [json.loads] parses it *)

(** The record file, its permission bits, the process umask, and whether
    the directory and file accept writes. *)
Record disk : Type := mkDisk {
  d_content : file_content;
  d_mode : Z;
  d_umask : Z;
  d_writable : bool
}.

(** [FileTokenStorage._read]: [FileNotFoundError], [JSONDecodeError] and
    [OSError] give [{}]; a [UnicodeDecodeError] is a [ValueError] and none
    of those, so it escapes. Any JSON value is returned as it is. *)
Definition _read (d : disk) : result json :=
  match d_content d with
  | FAbsent | FUnreadable | FMalformed => Ok (JObj [])
  | FUndecodable => Err UnicodeDecodeError
  | FJson v => Ok v
  end.

(** [path.write_text(...)]: a new file is created with mode
    [0o666 & ~umask]; an existing file keeps its mode. The text is
    [json.dumps(data)], which [json.loads] reads back as [data]. *)
Definition write_text (data : json) (d : disk) : result disk :=
  if d_writable d then
    let m := match d_content d with
             | FAbsent => Z.land 438 (Z.lnot (d_umask d))
             | _ => d_mode d
             end in
    Ok (mkDisk (FJson data) m (d_umask d) (d_writable d))
  else Err OSError.

(** [path.chmod(mode)]. *)
Definition chmod (mode : Z) (d : disk) : result disk :=
  Ok (mkDisk (d_content d) mode (d_umask d) (d_writable d)).

(** [FileTokenStorage._write]: [mkdir(parents=True, exist_ok=True)] (which
    fails exactly when writing does), [write_text], then [chmod(0o600)]. *)
Definition _write (data : json) (d : disk) : result disk :=
  let* d1 := write_text data d in
  chmod 384 d1.

(** [FileTokenStorage.get_tokens]. *)
Definition get_tokens (d : disk) : result (option credential) :=
  let* data := _read d in
  let* raw := py_get data "tokens" in
  match raw with
  | None | Some JNull => Ok None
  | Some r => Ok (credential_validate r)
  end.

(** [FileTokenStorage.set_tokens]. *)
Definition set_tokens (c : credential) (d : disk) : result disk :=
  let* data := _read d in
  let* data' := py_setitem data "tokens" (credential_dump c) in
  _write data' d.

(** [FileTokenStorage.get_client_info]. *)
Definition get_client_info (d : disk) : result (option client_info) :=
  let* data := _read d in
  let* raw := py_get data "client_info" in
  match raw with
  | None | Some JNull => Ok None
  | Some r => Ok (client_info_validate r)
  end.

(** [FileTokenStorage.set_client_info]. *)
Definition set_client_info (ci : client_info) (d : disk) : result disk :=
  let* data := _read d in
  let* data' := py_setitem data "client_info" (client_info_dump ci) in
  _write data' d.

(** The raw entry stored under key [k] of the record, as [_read] sees it. *)
Definition record_entry (k : string) (d : disk) : result (option json) :=
  let* data := _read d in py_get data k.

Definition fresh_disk : disk := mkDisk FAbsent 0 18 true.
Definition tok_abc : credential := mkCredential "abc123" Bearer None None None.

(** ** urllib.parse: the query of a request path

    The request target is [self.path]: [http.server] decodes the request
    line as ISO-8859-1, so each of its characters is one code point below
    256, held here as one [ascii] (its code is the code point). The
    strings [unquote] returns are held as their UTF-8 bytes, like the other
    strings of the development. *)

Definition nl : string := String (ascii_of_nat 10) EmptyString.
Definition dq : string := String (ascii_of_nat 34) EmptyString.

(** Whether character [c] occurs in [s]. *)
Definition mem_char (c : ascii) (s : string) : bool :=
  existsb (Ascii.eqb c) (list_ascii_of_string s).

(** [s.split(sep)] with a one-character separator. *)
Fixpoint split_on (sep : ascii) (s : string) : list string :=
  match s with
  | EmptyString => [EmptyString]
  | String c s' =>
      if Ascii.eqb c sep then EmptyString :: split_on sep s'
      else match split_on sep s' with
           | w :: ws => String c w :: ws
           | [] => [String c EmptyString]
           end
  end.

(** [s.split(sep, 1)]: [None] when [sep] does not occur. *)
Fixpoint split_once (sep : ascii) (s : string) : option (string * string) :=
  match s with
  | EmptyString => None
  | String c s' =>
      if Ascii.eqb c sep then Some (EmptyString, s')
      else match split_once sep s' with
           | Some (a, b) => Some (String c a, b)
           | None => None
           end
  end.

(** [urlsplit] first strips the leading C0 controls and spaces
    ([url.lstrip(_WHATWG_C0_CONTROL_OR_SPACE)], code points up to 0x20). *)
Fixpoint lstrip_c0 (s : string) : string :=
  match s with
  | EmptyString => EmptyString
  | String c s' => if (nat_of_ascii c <=? 32)%nat then lstrip_c0 s' else s
  end.

(** ... then deletes tab, CR and LF ([_UNSAFE_URL_BYTES_TO_REMOVE]). *)
Fixpoint remove_unsafe (s : string) : string :=
  match s with
  | EmptyString => EmptyString
  | String c s' =>
      let n := nat_of_ascii c in
      if (n =? 9)%nat || (n =? 10)%nat || (n =? 13)%nat then remove_unsafe s'
      else String c (remove_unsafe s')
  end.

Definition is_ascii_alpha (c : ascii) : bool :=
  let n := nat_of_ascii c in
  ((65 <=? n) && (n <=? 90))%nat || ((97 <=? n) && (n <=? 122))%nat.

Definition is_digit (c : ascii) : bool :=
  let n := nat_of_ascii c in ((48 <=? n) && (n <=? 57))%nat.

Definition hexval (c : ascii) : option nat :=
  let n := nat_of_ascii c in
  if (48 <=? n)%nat && (n <=? 57)%nat then Some (n - 48)%nat
  else if (97 <=? n)%nat && (n <=? 102)%nat then Some (n - 87)%nat
  else if (65 <=? n)%nat && (n <=? 70)%nat then Some (n - 55)%nat
  else None.

Definition is_hex (c : ascii) : bool :=
  match hexval c with Some _ => true | None => false end.

(** [scheme_chars]: ASCII letters, digits and ["+-."]. *)
Definition scheme_char (c : ascii) : bool :=
  is_ascii_alpha c || is_digit c || Ascii.eqb c "+" || Ascii.eqb c "-" || Ascii.eqb c ".".

(** [i = url.find(':')] and the loop over [url[:i]]: [Some url[i+1:]] when
    every character before the first [':'] is a scheme character. *)
Fixpoint scheme_rest (s : string) : option string :=
  match s with
  | EmptyString => None
  | String c s' =>
      if Ascii.eqb c ":" then Some s'
      else if scheme_char c then scheme_rest s' else None
  end.

(** The scheme step of [urlsplit]: when [i > 0], [url[0]] is an ASCII
    letter and [url[:i]] holds only scheme characters, [url = url[i+1:]]
    (the scheme itself plays no part in the query). *)
Definition strip_scheme (u : string) : string :=
  match u with
  | String c _ =>
      if is_ascii_alpha c then
        match scheme_rest u with Some r => r | None => u end
      else u
  | EmptyString => u
  end.

(** [_splitnetloc(url, 2)] on what follows the ["//"]: the netloc runs up to
    the first of ['/'], ['?'], ['#']. *)
Fixpoint split_netloc (s : string) : string * string :=
  match s with
  | EmptyString => (EmptyString, EmptyString)
  | String c s' =>
      if Ascii.eqb c "/" || Ascii.eqb c "?" || Ascii.eqb c "#" then (EmptyString, s)
      else let (a, b) := split_netloc s' in (String c a, b)
  end.

(** [int(s, 10)] on ASCII digits. *)
Fixpoint dec_value (acc : nat) (s : string) : nat :=
  match s with
  | EmptyString => acc
  | String c s' => dec_value (10 * acc + (nat_of_ascii c - 48)) s'
  end.

(** [IPv4Address._parse_octet] succeeds. *)
Definition octet_ok (o : string) : bool :=
  match o with
  | EmptyString => false
  | String c _ =>
      if negb (forallb is_digit (list_ascii_of_string o)) then false
      else if (3 <? String.length o)%nat then false
      else if negb (String.eqb o "0") && Ascii.eqb c "0" then false
      else (dec_value 0 o <=? 255)%nat
  end.

(** [IPv4Address(a)] succeeds: no ['/'], four dot-separated octets. *)
Definition is_ipv4 (a : string) : bool :=
  negb (mem_char "/" a) &&
  (length (split_on "." a) =? 4)%nat &&
  forallb octet_ok (split_on "." a).

(** [_BaseV6._parse_hextet] succeeds: one to four hex digits ([int('', 16)]
    raises). *)
Definition hextet_ok (h : string) : bool :=
  forallb is_hex (list_ascii_of_string h) &&
  (1 <=? String.length h)%nat && (String.length h <=? 4)%nat.

(** The positions of the empty strings of [l], counted from [i]. *)
Fixpoint empty_positions (i : nat) (l : list string) : list nat :=
  match l with
  | [] => []
  | x :: l' =>
      if String.eqb x EmptyString then i :: empty_positions (S i) l'
      else empty_positions (S i) l'
  end.

(** [_BaseV6._ip_int_from_string] succeeds. An IPv4 suffix is replaced by
    the two hextets of its value; both are always valid, so only their
    number matters here. *)
Definition ipv6_addr_ok (a : string) : bool :=
  if String.eqb a EmptyString then false else
  let parts := split_on ":" a in
  if (length parts <? 3)%nat then false else
  let lastp := last parts EmptyString in
  let parts_opt :=
    if mem_char "." lastp then
      if is_ipv4 lastp then Some (removelast parts ++ ["0"; "0"]) else None
    else Some parts in
  match parts_opt with
  | None => false
  | Some parts =>
      let n := length parts in
      if (9 <? n)%nat then false else
      let skips := filter (fun i => (1 <=? i) && (i <=? n - 2))%nat
                          (empty_positions 0 parts) in
      match skips with
      | [] =>
          (n =? 8)%nat &&
          negb (String.eqb (hd EmptyString parts) EmptyString) &&
          negb (String.eqb (last parts EmptyString) EmptyString) &&
          forallb hextet_ok parts
      | [k] =>
          let first_empty := String.eqb (hd EmptyString parts) EmptyString in
          let last_empty := String.eqb (last parts EmptyString) EmptyString in
          let hi := if first_empty then k - 1 else k in
          let lo := if last_empty then n - k - 2 else n - k - 1 in
          (negb first_empty || (hi =? 0)%nat) &&
          (negb last_empty || (lo =? 0)%nat) &&
          (1 <=? 8 - (hi + lo))%nat &&
          forallb hextet_ok (firstn hi parts) &&
          forallb hextet_ok (skipn (n - lo) parts)
      | _ => false
      end
  end.

(** [IPv6Address(a)] succeeds: no ['/'], then [_split_scope_id]: a scope
    after ['%'] must be non-empty and hold no further ['%']. *)
Definition is_ipv6 (a : string) : bool :=
  negb (mem_char "/" a) &&
  match split_once "%" a with
  | None => ipv6_addr_ok a
  | Some (addr, scope) =>
      negb (String.eqb scope EmptyString) && negb (mem_char "%" scope) &&
      ipv6_addr_ok addr
  end.

(** [re.match(r"\Av[a-fA-F0-9]+\..+\Z", h)] on the part after the ['v']:
    [seen] records that a hex digit was read; ['.'] matches anything but a
    line feed. *)
Fixpoint ipvfuture_rest (seen : bool) (s : string) : bool :=
  match s with
  | EmptyString => false
  | String c s' =>
      if is_hex c then ipvfuture_rest true s'
      else Ascii.eqb c "." && seen &&
           negb (String.eqb s' EmptyString) && negb (mem_char (ascii_of_nat 10) s')
  end.

(** [_check_bracketed_host(hostname)]. *)
Definition check_bracketed_host (h : string) : result unit :=
  match h with
  | String c h' =>
      if Ascii.eqb c "v" then
        if ipvfuture_rest false h' then Ok tt else Err ValueError
      else if is_ipv4 h then Err ValueError
      else if is_ipv6 h then Ok tt
      else Err ValueError
  | EmptyString => Err ValueError
  end.

(** [_check_bracketed_netloc(netloc)]. *)
Definition check_bracketed_netloc (netloc : string) : result unit :=
  let hostname_and_port := last (split_on "@" netloc) EmptyString in
  match split_once "[" hostname_and_port with
  | Some (before_bracket, bracketed) =>
      if negb (String.eqb before_bracket EmptyString) then Err ValueError else
      let (hostname, port) := match split_once "]" bracketed with
                              | Some (h, p) => (h, p)
                              | None => (bracketed, EmptyString)
                              end in
      match port with
      | String c _ => if Ascii.eqb c ":" then check_bracketed_host hostname else Err ValueError
      | EmptyString => check_bracketed_host hostname
      end
  | None =>
      check_bracketed_host (match split_once ":" hostname_and_port with
                            | Some (h, _) => h
                            | None => hostname_and_port
                            end)
  end.

(** [urlparse(path).query], raising [ValueError] where [urlsplit] does: a
    netloc with one of ['['], [']'] but not the other, or a bracketed host
    that is neither a valid IPv6 address nor an IPvFuture one. Then the
    fragment is cut at the first ['#'] and the query is what follows the
    first ['?']. [_checknetloc] never raises here: no code point below 256
    has an NFKC form holding ['/'], ['?'], ['#'], ['@'] or [':'] it did not
    already hold. *)
Definition urlparse_query (path : string) : result string :=
  let u := strip_scheme (remove_unsafe (lstrip_c0 path)) in
  let* u := match u with
            | String c1 (String c2 r) =>
                if Ascii.eqb c1 "/" && Ascii.eqb c2 "/" then
                  let (netloc, rest) := split_netloc r in
                  let ob := mem_char "[" netloc in
                  let cb := mem_char "]" netloc in
                  if xorb ob cb then Err ValueError
                  else if ob && cb then
                    let* _ := check_bracketed_netloc netloc in Ok rest
                  else Ok rest
                else Ok u
            | _ => Ok u
            end in
  let u := match split_once "#" u with Some (a, _) => a | None => u end in
  Ok (match split_once "?" u with Some (_, q) => q | None => EmptyString end).

(** [urllib.parse.unquote_to_bytes] on a run of ASCII characters: each
    [%XX] with two hex digits becomes the byte [0xXX]; any other ['%']
    stays. *)
Fixpoint unquote_to_bytes (s : string) : string :=
  match s with
  | EmptyString => EmptyString
  | String c s' =>
      if Ascii.eqb c "%" then
        match s' with
        | String h1 (String h2 rest) =>
            match hexval h1, hexval h2 with
            | Some a, Some b => String (ascii_of_nat (16 * a + b)) (unquote_to_bytes rest)
            | _, _ => String c (unquote_to_bytes s')
            end
        | _ => String c (unquote_to_bytes s')
        end
      else String c (unquote_to_bytes s')
  end.

(** U+FFFD in UTF-8. *)
Definition fffd : string :=
  String (ascii_of_nat 239) (String (ascii_of_nat 191) (String (ascii_of_nat 189) EmptyString)).

Definition in_range (lo hi : nat) (b : ascii) : bool :=
  ((lo <=? nat_of_ascii b) && (nat_of_ascii b <=? hi))%nat.

Definition cont_byte (b : ascii) : bool := in_range 128 191 b.

(** [bytes.decode('utf-8', 'replace')], written back as UTF-8: a
    well-formed sequence is kept, and each maximal ill-formed prefix (a lead
    byte with the valid continuation bytes that follow it, or a byte that
    cannot start a sequence) becomes one U+FFFD. *)
Fixpoint utf8_replace (s : string) : string :=
  match s with
  | EmptyString => EmptyString
  | String b s1 =>
      let n := nat_of_ascii b in
      if (n <? 128)%nat then String b (utf8_replace s1)
      else if in_range 194 223 b then
        match s1 with
        | String b2 s2 =>
            if cont_byte b2 then String b (String b2 (utf8_replace s2))
            else fffd ++ utf8_replace s1
        | EmptyString => fffd
        end
      else if in_range 224 239 b then
        match s1 with
        | String b2 s2 =>
            let lo2 := if (n =? 224)%nat then 160 else 128 in
            let hi2 := if (n =? 237)%nat then 159 else 191 in
            if in_range lo2 hi2 b2 then
              match s2 with
              | String b3 s3 =>
                  if cont_byte b3 then String b (String b2 (String b3 (utf8_replace s3)))
                  else fffd ++ utf8_replace s2
              | EmptyString => fffd
              end
            else fffd ++ utf8_replace s1
        | EmptyString => fffd
        end
      else if in_range 240 244 b then
        match s1 with
        | String b2 s2 =>
            let lo2 := if (n =? 240)%nat then 144 else 128 in
            let hi2 := if (n =? 244)%nat then 143 else 191 in
            if in_range lo2 hi2 b2 then
              match s2 with
              | String b3 s3 =>
                  if cont_byte b3 then
                    match s3 with
                    | String b4 s4 =>
                        if cont_byte b4
                        then String b (String b2 (String b3 (String b4 (utf8_replace s4))))
                        else fffd ++ utf8_replace s3
                    | EmptyString => fffd
                    end
                  else fffd ++ utf8_replace s2
              | EmptyString => fffd
              end
            else fffd ++ utf8_replace s1
        | EmptyString => fffd
        end
      else fffd ++ utf8_replace s1
  end.

(** A code point below 256 in UTF-8. *)
Definition latin1_utf8 (c : ascii) : string :=
  let n := nat_of_ascii c in
  if (n <? 128)%nat then String c EmptyString
  else String (ascii_of_nat (192 + n / 64)) (String (ascii_of_nat (128 + n mod 64)) EmptyString).

Fixpoint latin1_to_utf8 (s : string) : string :=
  match s with
  | EmptyString => EmptyString
  | String c s' => latin1_utf8 c ++ latin1_to_utf8 s'
  end.

(** The loop of [unquote] over [_asciire.split(string)]: [run] is the
    current run of ASCII characters, decoded by
    [unquote_to_bytes(run).decode('utf-8', 'replace')]; other characters
    are kept. *)
Fixpoint unquote_go (run : string) (s : string) : string :=
  match s with
  | EmptyString => utf8_replace (unquote_to_bytes run)
  | String c s' =>
      if (nat_of_ascii c <? 128)%nat then unquote_go (run ++ String c EmptyString) s'
      else utf8_replace (unquote_to_bytes run) ++ latin1_utf8 c ++ unquote_go EmptyString s'
  end.

(** [urllib.parse.unquote(string)]: a string without ['%'] is returned as
    it is. *)
Definition unquote (s : string) : string :=
  if mem_char "%" s then unquote_go EmptyString s else latin1_to_utf8 s.

(** [s.replace('+', ' ')]. *)
Fixpoint plus_to_space (s : string) : string :=
  match s with
  | EmptyString => EmptyString
  | String c s' =>
      String (if Ascii.eqb c "+" then " "%char else c) (plus_to_space s')
  end.

(** One field of [parse_qsl]: [None] when the field is skipped. *)
Definition qsl_field (keep_blank_values : bool) (name_value : string)
  : option (string * string) :=
  match name_value with
  | EmptyString => None
  | _ =>
      let nv := match split_once "=" name_value with
                | Some (n, v) => Some (n, v)
                | None => if keep_blank_values then Some (name_value, EmptyString) else None
                end in
      match nv with
      | Some (n, v) =>
          if negb (String.eqb v EmptyString) || keep_blank_values then
            Some (unquote (plus_to_space n), unquote (plus_to_space v))
          else None
      | None => None
      end
  end.

(** [parse_qsl(qs, keep_blank_values)] with [separator='&'] and
    [strict_parsing=False]. *)
Definition parse_qsl (keep_blank_values : bool) (qs : string) : list (string * string) :=
  match qs with
  | EmptyString => []
  | _ => flat_map (fun f => match qsl_field keep_blank_values f with
                            | Some p => [p]
                            | None => []
                            end) (split_on "&" qs)
  end.

(** The dict built by [parse_qs]: each name with the list of its values, in
    order of first appearance. *)
Fixpoint qs_add (name value : string) (d : list (string * list string))
  : list (string * list string) :=
  match d with
  | [] => [(name, [value])]
  | (n, vs) :: d' =>
      if String.eqb name n then (n, vs ++ [value]) :: d' else (n, vs) :: qs_add name value d'
  end.

Definition parse_qs (qs : string) : list (string * list string) :=
  fold_left (fun d p => qs_add (fst p) (snd p) d) (parse_qsl false qs) [].

(** [qs.get(name)] on the [parse_qs] dict. *)
Fixpoint qs_get (name : string) (d : list (string * list string)) : option (list string) :=
  match d with
  | [] => None
  | (n, vs) :: d' => if String.eqb name n then Some vs else qs_get name d'
  end.

(** The fields of a request path's query, each name with its (decoded)
    value, blank values included: the query "carries" parameter [k] when
    [k] is among the names. A target [urlparse] rejects has no fields: the
    handler raises before it reads any. *)
Definition query_fields (path : string) : list (string * string) :=
  match urlparse_query path with
  | Ok q => parse_qsl true q
  | Err _ => []
  end.

(** [urlparse(path)] does not raise. *)
Definition url_ok (path : string) : bool :=
  match urlparse_query path with Ok _ => true | Err _ => false end.

Definition carries (k : string) (path : string) : Prop :=
  exists v, In (k, v) (query_fields path).

(** ** OAuthCallbackServer *)

Definition _SUCCESS_HTML : string :=
  "<!DOCTYPE html>" ++ nl ++
  "<html><head><title>Authentication Successful</title></head>" ++ nl ++
  "<body style=" ++ dq ++ "font-family:system-ui;text-align:center;padding:3em" ++ dq ++ ">" ++ nl ++
  "<h1>&#x2705; Authentication Successful</h1>" ++ nl ++
  "<p>You can close this tab and return to the terminal.</p>" ++ nl ++
  "</body></html>" ++ nl.

(** [_ERROR_HTML.format(error=error)]. *)
Definition _ERROR_HTML (error : string) : string :=
  "<!DOCTYPE html>" ++ nl ++
  "<html><head><title>Authentication Failed</title></head>" ++ nl ++
  "<body style=" ++ dq ++ "font-family:system-ui;text-align:center;padding:3em" ++ dq ++ ">" ++ nl ++
  "<h1>&#x274c; Authentication Failed</h1>" ++ nl ++
  "<p>" ++ error ++ "</p>" ++ nl ++
  "</body></html>" ++ nl.

Record response : Type := mkResponse {
  status : Z;
  headers : list (string * string);
  body : string
}.

Definition html_response (st : Z) (b : string) : response :=
  mkResponse st [("Content-Type", "text/html")] b.

(** The receiver's [asyncio.Future[tuple[str, str | None]]]. *)
Inductive future : Type :=
| Pending
| Resolved (code : string) (state : option string)
| Rejected (e : exn).

(** [future.set_result] / [future.set_exception], run by the loop through
    [call_soon_threadsafe]: on a future that is already done they raise
    [InvalidStateError] inside the loop callback, which the loop logs; the
    future keeps its outcome. *)
Definition set_result (code : string) (state : option string) (f : future) : future :=
  match f with Pending => Resolved code state | _ => f end.

Definition set_exception (e : exn) (f : future) : future :=
  match f with Pending => Rejected e | _ => f end.

(** [_Handler.do_GET]: the response written to the client and the future
    after the scheduled callback has run. When [urlparse] raises, the
    exception leaves [do_GET] before anything is written or scheduled: the
    server's [handle_error] logs it and closes the connection, so no
    response is sent and the future is untouched. *)
Definition do_GET (path : string) (fut : future) : result response * future :=
  match urlparse_query path with
  | Err e => (Err e, fut)
  | Ok query =>
      let qs := parse_qs query in
      let code_list := qs_get "code" qs in
      let state_list := qs_get "state" qs in
      let error_list := qs_get "error" qs in
      match error_list with
      | Some (error_msg :: _) =>
          (Ok (html_response 400 (_ERROR_HTML error_msg)),
           set_exception (RuntimeError ("OAuth error: " ++ error_msg)) fut)
      | _ =>
          match code_list with
          | None | Some [] => (Ok (html_response 400 (_ERROR_HTML "Missing code parameter")), fut)
          | Some (code :: _) =>
              let state := match state_list with
                           | Some (s :: _) => Some s
                           | _ => None
                           end in
              (Ok (html_response 200 _SUCCESS_HTML), set_result code state fut)
          end
      end
  end.

(** ** ensure_oauth_token *)

(** Observable steps of the slow path. *)
Inductive event : Type :=
| ReceiverCreated   (** [OAuthCallbackServer(loop)]: the listener is bound *)
| ReceiverStarted   (** [callback_server.start()] *)
| Preflight         (** [client.post(server_url)] is issued *)
| ReceiverStopped.  (** [callback_server.stop()] *)

Record state : Type := mkState {
  st_disk : disk;
  st_trace : list event
}.

(** State and exception monad of the coroutine. *)
Definition M (A : Type) : Type := state -> result A * state.

Definition ret {A} (a : A) : M A := fun s => (Ok a, s).
Definition raise {A} (e : exn) : M A := fun s => (Err e, s).
Definition bind {A B} (m : M A) (f : A -> M B) : M B :=
  fun s => match m s with
           | (Ok a, s1) => f a s1
           | (Err e, s1) => (Err e, s1)
           end.

Notation "'do' x <- m ;; f" := (bind m (fun x => f))
  (at level 200, x name, m at level 100, f at level 200).

Definition emit (ev : event) : M unit :=
  fun s => (Ok tt, mkState (st_disk s) (st_trace s ++ [ev])).

(** A storage read, e.g. [await storage.get_tokens()]. *)
Definition read_disk {A} (f : disk -> result A) : M A :=
  fun s => (f (st_disk s), s).

(** [try: body finally: fin]: [fin] always runs; an exception from [fin]
    replaces the outcome of [body]. *)
Definition try_finally {A} (body : M A) (fin : M unit) : M A :=
  fun s => match body s with
           | (r, s1) =>
               match fin s1 with
               | (Ok _, s2) => (r, s2)
               | (Err e, s2) => (Err e, s2)
               end
           end.

(** The provider's side of the preflight: what [OAuthClientProvider] does
    during [client.post(server_url)] (discovery, registration, browser,
    callback, token exchange), as its effect on the record file through
    [storage] and the exception it raises, if any. *)
Definition provider_flow : Type := disk -> disk * option exn.

(** [async with httpx.AsyncClient(auth=provider) as client:
       await client.post(server_url)]. *)
Definition preflight (flow : provider_flow) : M unit :=
  do _ <- emit Preflight ;;
  fun s => let (d', err) := flow (st_disk s) in
           let s' := mkState d' (st_trace s) in
           match err with
           | None => (Ok tt, s')
           | Some e => (Err e, s')
           end.

Definition no_token_msg (server_name : string) : string :=
  "OAuth flow completed but no token was stored for " ++ server_name.

(** [ensure_oauth_token(server_name, server_url, token_dir)]; the state's
    disk is the record file [<token_dir>/<server_name>.json]. *)
Definition ensure_oauth_token (flow : provider_flow) (server_name : string) : M string :=
  do cached <- read_disk get_tokens ;;
  match cached with
  | Some c => ret (access_token c)
  | None =>
      do _ <- emit ReceiverCreated ;;
      do _ <- emit ReceiverStarted ;;
      try_finally
        (do _ <- preflight flow ;;
         do token <- read_disk get_tokens ;;
         match token with
         | None => raise (RuntimeError (no_token_msg server_name))
         | Some t => ret (access_token t)
         end)
        (emit ReceiverStopped)
  end.

(** The provider of the end-to-end test: writes a fresh token during the
    preflight. *)
Definition flow_writes_fresh : provider_flow :=
  fun d => (mkDisk (FJson (JObj [("tokens", JObj [("access_token", JStr "fresh_tok");
                                                  ("token_type", JStr "Bearer")])]))
                   (d_mode d) (d_umask d) (d_writable d), None).

Definition flow_writes_nothing : provider_flow := fun d => (d, None).

(** The values of parameter [k] in a request path's query, in order, blank
    values included. *)
Definition param_values (k : string) (path : string) : list string :=
  map snd (filter (fun f => String.eqb (fst f) k) (query_fields path)).

(** The non-empty ones among values [l]. *)
Definition nonblank (l : list string) : list string :=
  filter (fun v => negb (String.eqb v EmptyString)) l.

(** Fixtures: a record file holding a cached token, one holding only a
    client registration, and a provider that fails during discovery. *)
Definition disk_cached : disk :=
  mkDisk (FJson (JObj [("tokens", credential_dump tok_abc)])) 384 18 true.

Definition ci_cid : client_info := mkClientInfo "cid" (Some "csec") ["http://localhost/cb"].

Definition disk_with_client_info : disk :=
  mkDisk (FJson (JObj [("client_info", client_info_dump ci_cid)])) 384 18 true.

Definition flow_discovery_fails : provider_flow :=
  fun d => (d, Some (ProviderError "discovery failed")).

Definition ci_other : client_info := mkClientInfo "cid2" None ["http://127.0.0.1:1/callback"].

(** The record files after [set_tokens tok_abc] on [disk_with_client_info],
    then [set_client_info ci_other]; and after each setter on a fresh
    directory. *)
Definition disk_tokens_and_client_info : disk :=
  mkDisk (FJson (JObj [("client_info", client_info_dump ci_cid);
                       ("tokens", credential_dump tok_abc)])) 384 18 true.

Definition disk_tokens_and_other_client_info : disk :=
  mkDisk (FJson (JObj [("client_info", client_info_dump ci_other);
                       ("tokens", credential_dump tok_abc)])) 384 18 true.

Definition disk_only_client_info : disk :=
  mkDisk (FJson (JObj [("client_info", client_info_dump ci_cid)])) 384 18 true.

(** ** The listener over a sequence of requests *)

(** The waiter after [serve_forever] has handled [paths] in order. *)
Definition serve (paths : list string) (fut : future) : future :=
  fold_left (fun f p => snd (do_GET p f)) paths fut.

(** A path prefix without ['?'], ['#'], tab, CR or LF. *)
Definition plain_prefix (s : string) : bool :=
  forallb (fun c => let n := nat_of_ascii c in
                    negb ((n =? 63)%nat || (n =? 35)%nat || (n =? 9)%nat ||
                          (n =? 10)%nat || (n =? 13)%nat))
          (list_ascii_of_string s).

(** A request target in origin form: a ['/'] that is not followed by a
    second ['/'] once tab, CR and LF are deleted. ([http.server] already
    reduces a leading ["//"] of [self.path] to a single ['/'].) *)
Definition origin_form (p : string) : bool :=
  match p with
  | String s r =>
      Ascii.eqb s "/" &&
      match remove_unsafe r with
      | String c _ => negb (Ascii.eqb c "/")
      | EmptyString => true
      end
  | EmptyString => false
  end.

(** ** agent_mcp.config *)

(** Errors raised by the rest of the package. *)
Inductive app_exn : Type :=
| AppValueError (msg : string)
| AppAttributeError
| AppAssertionError
| AppUnknownTransport (transport : json)   (** [ValueError("Unknown transport: ...")] *)
| AppConnectError (msg : string)           (** raised while connecting / closing *)
| AppIsADirectoryError.

Definition app_result (A : Type) : Type := (A + app_exn)%type.

(** [os.environ.get(var, "")], the environment as an association list. *)
Fixpoint env_get (env : list (string * string)) (var : string) : string :=
  match env with
  | [] => EmptyString
  | (k, v) :: env' => if String.eqb var k then v else env_get env' var
  end.

(** Scanner state for [re.sub(r"\$\{([^}]+)\}", _replace, value)]: outside a
    match, or inside ["${"] having read the name [acc] so far. *)
Inductive scan : Type :=
| Outside
| InName (acc : string).

(** Leftmost matching: at ['$'] followed by ['{'] and a character other than
    ['}'], the greedy [[^}]+] runs to the next ['}']; when none follows, no
    match exists there or later and the rest is copied. *)
Fixpoint resolve_scan (env : list (string * string)) (st : scan) (s : string) : string :=
  match s with
  | EmptyString =>
      match st with
      | Outside => EmptyString
      | InName acc => "${" ++ acc
      end
  | String c s' =>
      match st with
      | Outside =>
          if Ascii.eqb c "$" then
            match s' with
            | String c1 (String c2 s2) =>
                if Ascii.eqb c1 "{" && negb (Ascii.eqb c2 "}")
                then resolve_scan env (InName (String c2 EmptyString)) s2
                else String c (resolve_scan env Outside s')
            | _ => String c (resolve_scan env Outside s')
            end
          else String c (resolve_scan env Outside s')
      | InName acc =>
          if Ascii.eqb c "}" then env_get env acc ++ resolve_scan env Outside s'
          else resolve_scan env (InName (acc ++ String c EmptyString)) s'
      end
  end.

(** [_resolve_env_vars]. *)
Definition _resolve_env_vars (env : list (string * string)) (value : string) : string :=
  resolve_scan env Outside value.

(** [_resolve_recursive]: strings are resolved, dict values (not keys) and
    list items recursively, anything else is returned as it is. YAML data
    is taken with string keys. *)
Fixpoint _resolve_recursive (env : list (string * string)) (obj : json) : json :=
  match obj with
  | JStr s => JStr (_resolve_env_vars env s)
  | JObj kv => JObj (map (fun kx => (fst kx, _resolve_recursive env (snd kx))) kv)
  | JArr l => JArr (map (_resolve_recursive env) l)
  | _ => obj
  end.

(** [ServerConfig]; the dataclass does not check field types, so the
    fields hold what the YAML gave. *)
Record server_config : Type := mkServerConfig {
  sc_name : string;
  sc_description : json;
  sc_transport : json;
  sc_command : json;
  sc_args : json;
  sc_env : json;
  sc_url : json;
  sc_headers : json;
  sc_auth : json
}.

(** [d.get(k, default)]. *)
Definition get_default (kv : list (string * json)) (k : string) (default : json) : json :=
  match dict_get k kv with Some v => v | None => default end.

(** One iteration of the [servers] loop of [load_config]: [srv.get] needs a
    dict. *)
Definition server_of (name : string) (srv : json) : app_result server_config :=
  match srv with
  | JObj kv =>
      inl (mkServerConfig name
             (get_default kv "description" (JStr ""))
             (get_default kv "transport" (JStr "stdio"))
             (get_default kv "command" JNull)
             (get_default kv "args" (JArr []))
             (get_default kv "env" (JObj []))
             (get_default kv "url" JNull)
             (get_default kv "headers" (JObj []))
             (get_default kv "auth" JNull))
  | _ => inr AppAttributeError
  end.

Fixpoint servers_of (items : list (string * json)) : app_result (list server_config) :=
  match items with
  | [] => inl []
  | (name, srv) :: items' =>
      match server_of name srv with
      | inr e => inr e
      | inl sc => match servers_of items' with
                  | inr e => inr e
                  | inl scs => inl (sc :: scs)
                  end
      end
  end.

(** [type(v).__name__] of a YAML value. *)
Definition py_type_name (v : json) : string :=
  match v with
  | JNull => "NoneType"
  | JBool _ => "bool"
  | JInt _ => "int"
  | JStr _ => "str"
  | JArr _ => "list"
  | JObj _ => "dict"
  end.

(** [load_config] after [yaml.safe_load]: resolution, the dict check, and
    the [servers] loop ([raw.get("servers", {}).items()] needs a dict). *)
Definition load_servers (env : list (string * string)) (loaded : json)
  : app_result (list server_config) :=
  match _resolve_recursive env loaded with
  | JObj raw =>
      match get_default raw "servers" (JObj []) with
      | JObj items => servers_of items
      | _ => inr AppAttributeError
      end
  | v => inr (AppValueError ("Expected config to be a dict, got " ++ py_type_name v))
  end.

(** Python truthiness of a YAML value. *)
Definition truthy (v : json) : bool :=
  match v with
  | JNull => false
  | JBool b => b
  | JInt z => negb (Z.eqb z 0)
  | JStr s => negb (String.eqb s EmptyString)
  | JArr l => negb (match l with [] => true | _ => false end)
  | JObj kv => negb (match kv with [] => true | _ => false end)
  end.

(** [raw.get("max_llm_calls") or raw.get("max_iterations", 20)]. *)
Definition load_max_llm_calls (raw : list (string * json)) : json :=
  let v := get_default raw "max_llm_calls" JNull in
  if truthy v then v else get_default raw "max_iterations" (JInt 20).

(** ** agent_mcp.mcp_client.ConnectionManager *)

(** The manager's [_sessions] dict (server name to session; sessions are
    numbered in creation order), the next session number, and the log of
    connection attempts (server names). *)
Record conn_mgr : Type := mkConnMgr {
  cm_sessions : list (string * nat);
  cm_next : nat;
  cm_attempts : list string
}.

(** The outcome of opening a transport ("stdio" or "http") for a config:
    [None] when the transport opens and [session.initialize()] succeeds,
    [Some msg] for the exception raised on the way. *)
Definition dialer : Type := string -> server_config -> option string.

Fixpoint session_get (name : string) (d : list (string * nat)) : option nat :=
  match d with
  | [] => None
  | (n, s) :: d' => if String.eqb name n then Some s else session_get name d'
  end.

(** [_connect_stdio] / [_connect_http]: the [assert] on [command] / [url],
    then the transport is opened (an attempt, logged) and a new session
    initialised. *)
Definition open_session (dial : dialer) (kind : string) (required : json)
           (cfg : server_config) (cm : conn_mgr) : app_result nat * conn_mgr :=
  match required with
  | JNull => (inr AppAssertionError, cm)
  | _ =>
      let cm1 := mkConnMgr (cm_sessions cm) (cm_next cm) (cm_attempts cm ++ [sc_name cfg]) in
      match dial kind cfg with
      | Some msg => (inr (AppConnectError msg), cm1)
      | None => (inl (cm_next cm1), mkConnMgr (cm_sessions cm1) (S (cm_next cm1)) (cm_attempts cm1))
      end
  end.

(** The [if config.transport == "stdio" ... elif ... == "http" ... else
    raise ValueError] dispatch of [connect]. *)
Definition dispatch (dial : dialer) (cfg : server_config) (cm : conn_mgr)
  : app_result nat * conn_mgr :=
  match sc_transport cfg with
  | JStr t =>
      if String.eqb t "stdio" then open_session dial "stdio" (sc_command cfg) cfg cm
      else if String.eqb t "http" then open_session dial "http" (sc_url cfg) cfg cm
      else (inr (AppUnknownTransport (JStr t)), cm)
  | t => (inr (AppUnknownTransport t), cm)
  end.

(** [ConnectionManager.connect]: the session and the manager afterwards. *)
Definition connect (dial : dialer) (cfg : server_config) (cm : conn_mgr)
  : app_result nat * conn_mgr :=
  match session_get (sc_name cfg) (cm_sessions cm) with
  | Some s => (inl s, cm)
  | None =>
      let (r, cm1) := dispatch dial cfg cm in
      match r with
      | inl s => (inl s, mkConnMgr (cm_sessions cm1 ++ [(sc_name cfg, s)]) (cm_next cm1)
                                   (cm_attempts cm1))
      | inr e => (inr e, cm1)
      end
  end.

(** [ConnectionManager.cleanup]: [_exit_stack.aclose()] (which may raise),
    then [_sessions.clear()]. *)
Definition cleanup (close_error : option string) (cm : conn_mgr) : app_result conn_mgr :=
  match close_error with
  | Some msg => inr (AppConnectError msg)
  | None => inl (mkConnMgr [] (cm_next cm) (cm_attempts cm))
  end.

(** ** agent_mcp.server._reauth (clearing named servers) *)

Inductive entry_kind : Type := EFile | EDir.

(** The token directory's entries (path relative to it, kind); [None] when
    the directory does not exist. *)
Definition token_dir_state : Type := option (list (string * entry_kind)).

Fixpoint entry_get (f : string) (es : list (string * entry_kind)) : option entry_kind :=
  match es with
  | [] => None
  | (n, k) :: es' => if String.eqb f n then Some k else entry_get f es'
  end.

Definition remove_entry (f : string) (es : list (string * entry_kind))
  : list (string * entry_kind) :=
  filter (fun e => negb (String.eqb (fst e) f)) es.

(** The [for name in server_names] loop of [_reauth]: the directory after
    it and the lines printed, or the exception [unlink] raised on a
    directory. *)
Fixpoint reauth_clear (names : list string) (dir : token_dir_state)
  : app_result (token_dir_state * list string) :=
  match names with
  | [] => inl (dir, [])
  | name :: names' =>
      let token_file := (name ++ ".json")%string in
      let step :=
        match dir with
        | Some es =>
            match entry_get token_file es with
            | Some EFile => inl (Some (remove_entry token_file es),
                                 ("Cleared OAuth tokens for '" ++ name ++ "'.")%string)
            | Some EDir => inr AppIsADirectoryError
            | None => inl (dir, ("No cached tokens for '" ++ name ++ "'.")%string)
            end
        | None => inl (dir, ("No cached tokens for '" ++ name ++ "'.")%string)
        end in
      match step with
      | inr e => inr e
      | inl (dir', line) =>
          match reauth_clear names' dir' with
          | inr e => inr e
          | inl (dir'', lines) => inl (dir'', line :: lines)
          end
      end
  end.

(** Well-formed manager: one session per server name, every session
    numbered below the next number. *)
Definition cm_wf (cm : conn_mgr) : Prop :=
  NoDup (map fst (cm_sessions cm)) /\
  (forall n s, In (n, s) (cm_sessions cm) -> s < cm_next cm).

(** Fixtures of the further properties: credentials, a config file, server
    configs, dialers and a token directory. *)
Definition tok_new : credential := mkCredential "new456" Bearer (Some 3600%Z) None (Some "r1").

Definition servers_yaml : list (string * json) :=
  [("${NAME}", JObj [("command", JStr "${CMD}")]); ("b", JObj [("transport", JStr "http")])].

Definition config_yaml : list (string * json) := [("servers", JObj servers_yaml)].

Definition config_env : list (string * string) := [("NAME", "a"); ("CMD", "npx")].

Definition cfg_fs : server_config :=
  mkServerConfig "fs" (JStr "") (JStr "stdio") (JStr "mcp-fs") (JArr []) (JObj []) JNull (JObj []) JNull.

Definition cfg_fs_http : server_config :=
  mkServerConfig "fs" (JStr "") (JStr "http") JNull (JArr []) (JObj []) JNull (JObj []) JNull.

Definition cfg_sse : server_config :=
  mkServerConfig "gh" (JStr "") (JStr "sse") JNull (JArr []) (JObj []) (JStr "http://x") (JObj []) JNull.

Definition dial_ok : dialer := fun _ _ => None.

Definition dial_refused : dialer := fun _ _ => Some "connection refused".

Definition cm_empty : conn_mgr := mkConnMgr [] 0 [].

Definition token_dir_es : list (string * entry_kind) :=
  [("fs.json", EFile); ("other.json", EFile); ("gh", EDir)].

(** ** Sample evaluations *)

Example get_tokens_fresh : get_tokens fresh_disk = Ok None.
Proof. reflexivity. Qed.

Example set_get_tokens_abc :
  match set_tokens tok_abc fresh_disk with
  | Ok d => get_tokens d = Ok (Some tok_abc) /\ d_mode d = 384%Z
  | Err _ => False
  end.
Proof. vm_compute. split; reflexivity. Qed.

Example get_tokens_corrupted :
  get_tokens (mkDisk FMalformed 384 18 true) = Ok None.
Proof. reflexivity. Qed.

Example parse_qs_ex :
  urlparse_query "/callback?code=AUTH%43ODE&state=S+1&code=&x#frag"
  = Ok "code=AUTH%43ODE&state=S+1&code=&x" /\
  parse_qs "code=AUTH%43ODE&state=S+1&code=&x"
  = [("code", ["AUTHCODE"]); ("state", ["S 1"])].
Proof. split; reflexivity. Qed.

Example urlparse_query_ipv6 :
  urlparse_query "http://[::1]:8080/callback?code=X" = Ok "code=X" /\
  urlparse_query "http://[fe80::1%eth0]/cb?code=X" = Ok "code=X" /\
  urlparse_query "http://[v1.x]/cb?code=X" = Ok "code=X" /\
  urlparse_query "http://[::ffff:1.2.3.4]/cb?code=X" = Ok "code=X" /\
  urlparse_query "/[x?code=X" = Ok "code=X".
Proof. repeat split; vm_compute; reflexivity. Qed.

Example urlparse_query_rejects :
  urlparse_query "http://[x/callback?code=X" = Err ValueError /\
  urlparse_query "http://[1.2.3.4]/cb?code=X" = Err ValueError /\
  urlparse_query "http://[::1]x/cb?code=X" = Err ValueError /\
  urlparse_query "http://a]/cb?code=X" = Err ValueError /\
  urlparse_query "http://[1:2:3:4:5:6:7:8:9]/cb" = Err ValueError /\
  urlparse_query "http://[1::2::3]/cb" = Err ValueError /\
  urlparse_query "//[x?code=X" = Err ValueError.
Proof. repeat split; vm_compute; reflexivity. Qed.

(** [unquote('a%FFb%C3%A9')] is ['a\ufffdb\xe9'], and the ISO-8859-1
    character [\xe9] is [\xe9] again, both written in UTF-8. *)
Example unquote_utf8 :
  unquote "a%FFb%C3%A9" = ("a" ++ fffd ++ "b" ++ latin1_utf8 (ascii_of_nat 233))%string /\
  unquote (String (ascii_of_nat 233) EmptyString) = latin1_utf8 (ascii_of_nat 233) /\
  latin1_utf8 (ascii_of_nat 233) = String (ascii_of_nat 195) (String (ascii_of_nat 169) EmptyString).
Proof. repeat split; vm_compute; reflexivity. Qed.

Example do_GET_code_state :
  do_GET "/callback?code=AUTHCODE&state=STATE123" Pending
  = (Ok (html_response 200 _SUCCESS_HTML), Resolved "AUTHCODE" (Some "STATE123")).
Proof. reflexivity. Qed.

Example do_GET_error :
  do_GET "/callback?error=access_denied" Pending
  = (Ok (html_response 400 (_ERROR_HTML "access_denied")),
     Rejected (RuntimeError "OAuth error: access_denied")).
Proof. reflexivity. Qed.

Example do_GET_missing :
  do_GET "/callback?foo=bar" Pending
  = (Ok (html_response 400 (_ERROR_HTML "Missing code parameter")), Pending).
Proof. reflexivity. Qed.

Example do_GET_bad_host :
  do_GET "http://[x/callback?code=X" Pending = (Err ValueError, Pending).
Proof. reflexivity. Qed.

Example ensure_fresh :
  ensure_oauth_token flow_writes_fresh "new-server" (mkState fresh_disk [])
  = (Ok "fresh_tok",
     mkState (fst (flow_writes_fresh fresh_disk))
             [ReceiverCreated; ReceiverStarted; Preflight; ReceiverStopped]).
Proof. reflexivity. Qed.

Example ensure_empty :
  fst (ensure_oauth_token flow_writes_nothing "empty" (mkState fresh_disk []))
  = Err (RuntimeError (no_token_msg "empty")).
Proof. reflexivity. Qed.

(** ** Query parsing lemmas *)

Lemma utf8_replace_nonempty (b : ascii) (s : string) :
  utf8_replace (String b s) <> EmptyString.
Proof.
  unfold fffd; simpl.
  repeat match goal with
         | |- context [if ?c then _ else _] => destruct c
         | |- context [match ?x with EmptyString => _ | String _ _ => _ end] => destruct x
         end; discriminate.
Qed.

Lemma unquote_to_bytes_nonempty (c : ascii) (s : string) :
  unquote_to_bytes (String c s) <> EmptyString.
Proof.
  simpl.
  repeat match goal with
         | |- context [if ?c then _ else _] => destruct c
         | |- context [match ?x with EmptyString => _ | String _ _ => _ end] => destruct x
         | |- context [match ?x with Some _ => _ | None => _ end] => destruct x
         end; discriminate.
Qed.

Lemma decode_run_empty (run : string) :
  utf8_replace (unquote_to_bytes run) = EmptyString -> run = EmptyString.
Proof.
  destruct run as [|c run']; [reflexivity|]. intro H. exfalso.
  destruct (unquote_to_bytes (String c run')) as [|b x] eqn:E.
  - exact (unquote_to_bytes_nonempty c run' E).
  - exact (utf8_replace_nonempty b x H).
Qed.

Lemma latin1_utf8_nonempty (c : ascii) (s : string) :
  (latin1_utf8 c ++ s)%string <> EmptyString.
Proof. unfold latin1_utf8. destruct (_ <? 128)%nat; discriminate. Qed.

Lemma unquote_go_empty (s run : string) :
  unquote_go run s = EmptyString -> run = EmptyString /\ s = EmptyString.
Proof.
  revert run. induction s as [|c s' IH]; intros run H; simpl in H.
  - split; [exact (decode_run_empty run H)|reflexivity].
  - exfalso. destruct (nat_of_ascii c <? 128)%nat.
    + destruct (IH _ H) as [Hr _]. destruct run; discriminate.
    + destruct (utf8_replace (unquote_to_bytes run)); simpl in H;
        [exact (latin1_utf8_nonempty c _ H)|discriminate].
Qed.

Lemma unquote_nonempty (c : ascii) (s : string) : unquote (String c s) <> EmptyString.
Proof.
  unfold unquote. destruct (mem_char "%" (String c s)).
  - intro H. destruct (unquote_go_empty _ _ H) as [_ E]. discriminate.
  - simpl. apply latin1_utf8_nonempty.
Qed.

Lemma unquote_plus_empty (v : string) :
  String.eqb (unquote (plus_to_space v)) EmptyString = String.eqb v EmptyString.
Proof.
  destruct v as [|c v']; [reflexivity|].
  change (plus_to_space (String c v'))
    with (String (if Ascii.eqb c "+" then " "%char else c) (plus_to_space v')).
  destruct (String.eqb_spec (unquote (String (if Ascii.eqb c "+" then " "%char else c)
                                               (plus_to_space v'))) EmptyString) as [E|E];
    [exfalso; exact (unquote_nonempty _ _ E)|reflexivity].
Qed.

(** Dropping blank values is filtering the fields that keep them. *)
Lemma qsl_field_drop_blank (f : string) :
  qsl_field false f =
  match qsl_field true f with
  | Some (n, v) => if String.eqb v EmptyString then None else Some (n, v)
  | None => None
  end.
Proof.
  destruct f as [|c f']; [reflexivity|].
  unfold qsl_field.
  destruct (split_once "=" (String c f')) as [[n v]|].
  - rewrite orb_true_r, orb_false_r, unquote_plus_empty.
    destruct (String.eqb v EmptyString); reflexivity.
  - reflexivity.
Qed.

Lemma parse_qsl_drop_blank (q : string) :
  parse_qsl false q =
  filter (fun f => negb (String.eqb (snd f) EmptyString)) (parse_qsl true q).
Proof.
  destruct q as [|c q']; [reflexivity|].
  unfold parse_qsl.
  induction (split_on "&" (String c q')) as [|f fs IH]; [reflexivity|].
  simpl. rewrite qsl_field_drop_blank.
  destruct (qsl_field true f) as [[n v]|]; simpl; [|exact IH].
  destruct (String.eqb v EmptyString); simpl; [exact IH|].
  f_equal; exact IH.
Qed.

Definition qs_values (k : string) (pairs : list (string * string)) : list string :=
  map snd (filter (fun f => String.eqb (fst f) k) pairs).

Lemma qs_get_add (k n v : string) (d : list (string * list string)) :
  qs_get k (qs_add n v d) =
  if String.eqb k n
  then Some (match qs_get k d with Some vs => vs ++ [v] | None => [v] end)
  else qs_get k d.
Proof.
  induction d as [|[n' vs] d' IH]; simpl.
  - destruct (String.eqb k n); reflexivity.
  - destruct (String.eqb_spec n n') as [->|Hn]; simpl.
    + destruct (String.eqb k n'); reflexivity.
    + rewrite IH. destruct (String.eqb_spec k n') as [->|Hk].
      * destruct (String.eqb_spec n' n); [congruence|reflexivity].
      * reflexivity.
Qed.

Lemma qs_get_fold (k : string) (pairs : list (string * string))
      (d : list (string * list string)) :
  qs_get k (fold_left (fun d p => qs_add (fst p) (snd p) d) pairs d) =
  match qs_get k d with
  | Some vs => Some (vs ++ qs_values k pairs)
  | None => match qs_values k pairs with [] => None | l => Some l end
  end.
Proof.
  revert d. induction pairs as [|[n v] ps IH]; intro d; simpl.
  - destruct (qs_get k d); [rewrite app_nil_r|]; reflexivity.
  - rewrite IH, qs_get_add. unfold qs_values; simpl.
    rewrite (String.eqb_sym n k).
    destruct (String.eqb k n); simpl.
    + destruct (qs_get k d); [rewrite <- app_assoc|]; reflexivity.
    + reflexivity.
Qed.

Lemma qs_values_drop_blank (k : string) (pairs : list (string * string)) :
  qs_values k (filter (fun f => negb (String.eqb (snd f) EmptyString)) pairs) =
  nonblank (qs_values k pairs).
Proof.
  induction pairs as [|[n v] ps IH]; [reflexivity|].
  unfold qs_values, nonblank in *; simpl.
  destruct (String.eqb v EmptyString) eqn:Ev, (String.eqb n k) eqn:Enk; simpl;
    rewrite ?Ev, ?Enk; simpl; rewrite ?Ev, ?Enk, ?IH; reflexivity.
Qed.

(** [qs.get(k)] is the list of the non-empty values of [k], or [None]. *)
Lemma qs_get_parse_qs (k path q : string) :
  urlparse_query path = Ok q ->
  qs_get k (parse_qs q) =
  match nonblank (param_values k path) with [] => None | l => Some l end.
Proof.
  intro Hq. unfold parse_qs. rewrite qs_get_fold. simpl.
  rewrite parse_qsl_drop_blank, qs_values_drop_blank.
  unfold param_values, query_fields. rewrite Hq. reflexivity.
Qed.

(** A target [urlparse] rejects has no parameter values. *)
Lemma param_values_err (k path : string) (e : exn) :
  urlparse_query path = Err e -> param_values k path = [].
Proof. intro H. unfold param_values, query_fields. rewrite H. reflexivity. Qed.

Lemma not_carries_no_values (k path : string) :
  ~ carries k path -> param_values k path = [].
Proof.
  unfold carries, param_values. intro Hn.
  induction (query_fields path) as [|[n v] fs IH]; [reflexivity|].
  simpl. destruct (String.eqb_spec n k) as [->|Hk].
  - exfalso. apply Hn. exists v. left. reflexivity.
  - apply IH. intros [v' Hv']. apply Hn. exists v'. right. exact Hv'.
Qed.

Lemma carries_values (k path : string) (v : string) :
  In (k, v) (query_fields path) -> In v (param_values k path).
Proof.
  unfold param_values. intro H. apply in_map_iff. exists (k, v).
  split; [reflexivity|]. apply filter_In. split; [exact H|]. apply String.eqb_refl.
Qed.

Lemma no_values_not_carries (k path : string) :
  param_values k path = [] -> ~ carries k path.
Proof.
  intros H [v Hv]. apply carries_values in Hv. rewrite H in Hv. destruct Hv.
Qed.

(** ** The three branches of [do_GET] *)

Lemma do_GET_error_branch (path : string) (fut : future) (e : string) (es : list string) :
  nonblank (param_values "error" path) = e :: es ->
  do_GET path fut =
  (Ok (html_response 400 (_ERROR_HTML e)),
   set_exception (RuntimeError ("OAuth error: " ++ e)) fut).
Proof.
  intro He. unfold do_GET. destruct (urlparse_query path) as [q|x] eqn:Hq.
  - cbv zeta. rewrite (qs_get_parse_qs "error" path q Hq), He. reflexivity.
  - rewrite (param_values_err "error" path x Hq) in He. discriminate.
Qed.

Lemma do_GET_code_branch (path : string) (fut : future) (c : string) (cs : list string) :
  nonblank (param_values "error" path) = [] ->
  nonblank (param_values "code" path) = c :: cs ->
  do_GET path fut =
  (Ok (html_response 200 _SUCCESS_HTML),
   set_result c (hd_error (nonblank (param_values "state" path))) fut).
Proof.
  intros He Hc. unfold do_GET. destruct (urlparse_query path) as [q|x] eqn:Hq.
  - cbv zeta.
    rewrite (qs_get_parse_qs "error" path q Hq), He.
    rewrite (qs_get_parse_qs "code" path q Hq), Hc.
    rewrite (qs_get_parse_qs "state" path q Hq).
    destruct (nonblank (param_values "state" path)); reflexivity.
  - rewrite (param_values_err "code" path x Hq) in Hc. discriminate.
Qed.

Lemma do_GET_missing_branch (path : string) (fut : future) :
  url_ok path = true ->
  nonblank (param_values "error" path) = [] ->
  nonblank (param_values "code" path) = [] ->
  do_GET path fut = (Ok (html_response 400 (_ERROR_HTML "Missing code parameter")), fut).
Proof.
  intros Hu He Hc. unfold url_ok in Hu. unfold do_GET.
  destruct (urlparse_query path) as [q|x] eqn:Hq; [|discriminate].
  cbv zeta.
  rewrite (qs_get_parse_qs "error" path q Hq), He.
  rewrite (qs_get_parse_qs "code" path q Hq), Hc. reflexivity.
Qed.


(** ** Storage lemmas *)

Lemma dict_get_set_same (k : string) (v : json) (d : list (string * json)) :
  dict_get k (dict_set k v d) = Some v.
Proof.
  induction d as [|[k' v'] d' IH]; simpl.
  - rewrite String.eqb_refl. reflexivity.
  - destruct (String.eqb k k') eqn:E; simpl; rewrite E; [reflexivity|exact IH].
Qed.

Lemma dict_get_set_other (k k' : string) (v : json) (d : list (string * json)) :
  k <> k' -> dict_get k' (dict_set k v d) = dict_get k' d.
Proof.
  intro Hne. induction d as [|[k0 v0] d' IH]; simpl.
  - destruct (String.eqb_spec k' k); [congruence|reflexivity].
  - destruct (String.eqb_spec k k0) as [->|H0]; simpl.
    + destruct (String.eqb_spec k' k0); [congruence|reflexivity].
    + destruct (String.eqb k' k0); [reflexivity|exact IH].
Qed.

Lemma credential_validate_dump (c : credential) :
  credential_validate (credential_dump c) = Some c.
Proof.
  destruct c as [a [] ei sc rt]. destruct ei, sc, rt; reflexivity.
Qed.

(** Shape of a completed [data = self._read(); data[k] = x; self._write(data)]. *)
Lemma write_entry_ok (k : string) (x : json) (d d' : disk) :
  (let* data := _read d in
   let* data' := py_setitem data k x in
   _write data' d) = Ok d' ->
  exists kv, _read d = Ok (JObj kv) /\
             d_content d' = FJson (JObj (dict_set k x kv)) /\
             d_mode d' = 384%Z.
Proof.
  destruct (_read d) as [v|e]; [|discriminate].
  destruct v; try discriminate.
  unfold py_setitem, _write, write_text, chmod.
  destruct (d_writable d); [|discriminate].
  intro H. injection H as <-. exists kv. auto.
Qed.

Lemma set_tokens_shape (c : credential) (d d' : disk) :
  set_tokens c d = Ok d' ->
  exists kv, _read d = Ok (JObj kv) /\
             d_content d' = FJson (JObj (dict_set "tokens" (credential_dump c) kv)) /\
             d_mode d' = 384%Z.
Proof. apply write_entry_ok. Qed.

Lemma set_client_info_shape (ci : client_info) (d d' : disk) :
  set_client_info ci d = Ok d' ->
  exists kv, _read d = Ok (JObj kv) /\
             d_content d' = FJson (JObj (dict_set "client_info" (client_info_dump ci) kv)) /\
             d_mode d' = 384%Z.
Proof. apply write_entry_ok. Qed.

Lemma read_json (d : disk) (v : json) : d_content d = FJson v -> _read d = Ok v.
Proof. intro H. unfold _read. rewrite H. reflexivity. Qed.

Lemma get_tokens_entry (d : disk) :
  get_tokens d =
  let* raw := record_entry "tokens" d in
  match raw with
  | None | Some JNull => Ok None
  | Some r => Ok (credential_validate r)
  end.
Proof. unfold get_tokens, record_entry. destruct (_read d); reflexivity. Qed.

Lemma get_client_info_entry (d : disk) :
  get_client_info d =
  let* raw := record_entry "client_info" d in
  match raw with
  | None | Some JNull => Ok None
  | Some r => Ok (client_info_validate r)
  end.
Proof. unfold get_client_info, record_entry. destruct (_read d); reflexivity. Qed.

(** A record that reads as a dict is updated whenever the file is writable. *)
Lemma set_tokens_ok_on_record (c : credential) (d : disk) (kv : list (string * json)) :
  _read d = Ok (JObj kv) -> d_writable d = true ->
  exists d', set_tokens c d = Ok d'.
Proof.
  intros Hr Hw. unfold set_tokens. rewrite Hr. simpl.
  unfold _write, write_text. rewrite Hw. eexists. reflexivity.
Qed.

(** [_read] fails soft on a missing, unreadable or non-JSON file. *)
Lemma get_soft_on_bad_file (d : disk) :
  d_content d = FAbsent \/ d_content d = FUnreadable \/ d_content d = FMalformed ->
  get_tokens d = Ok None /\ get_client_info d = Ok None.
Proof.
  intros [H|[H|H]]; unfold get_tokens, get_client_info, _read; rewrite H; auto.
Qed.

(** ** The two paths of [ensure_oauth_token] *)

Lemma ensure_oauth_token_slow_path (flow : provider_flow) (server_name : string) (s : state) :
  get_tokens (st_disk s) = Ok None ->
  ensure_oauth_token flow server_name s =
  (match snd (flow (st_disk s)) with
   | Some e => Err e
   | None =>
       match get_tokens (fst (flow (st_disk s))) with
       | Err e => Err e
       | Ok None => Err (RuntimeError (no_token_msg server_name))
       | Ok (Some t) => Ok (access_token t)
       end
   end,
   mkState (fst (flow (st_disk s)))
           (st_trace s ++ [ReceiverCreated; ReceiverStarted; Preflight; ReceiverStopped])).
Proof.
  intro H. destruct s as [d tr]. simpl in H.
  unfold ensure_oauth_token, preflight, bind, read_disk, emit, try_finally, raise, ret.
  simpl. rewrite H. simpl.
  destruct (flow d) as [d' [e|]]; simpl; repeat rewrite <- app_assoc; simpl;
    [reflexivity|].
  destruct (get_tokens d') as [[t|]|e]; simpl; rewrite <- ?app_assoc; reflexivity.
Qed.

(** ** Claims *)

(** C1: on a cache hit ([get_tokens] yields a credential), [ensure_oauth_token]
    returns that credential's [access_token] and leaves the state as it was:
    no receiver is created or started, no preflight is issued, whatever the
    provider would do. *)
Theorem ensure_oauth_token_cache_hit (flow : provider_flow) (server_name : string)
        (s : state) (c : credential) :
  get_tokens (st_disk s) = Ok (Some c) ->
  ensure_oauth_token flow server_name s = (Ok (access_token c), s).
Proof.
  intro H. unfold ensure_oauth_token, bind, read_disk. rewrite H. reflexivity.
Qed.

(** C2: when the cache misses and the provider's flow completes without
    raising, [ensure_oauth_token] reads [get_tokens] again: an absent token
    fails with the "completed but no token was stored" [RuntimeError], a
    stored credential gives exactly its [access_token]. *)
Theorem ensure_oauth_token_rereads_after_flow (flow : provider_flow) (server_name : string)
        (s : state) (d' : disk) :
  get_tokens (st_disk s) = Ok None ->
  flow (st_disk s) = (d', None) ->
  (get_tokens d' = Ok None ->
   fst (ensure_oauth_token flow server_name s) = Err (RuntimeError (no_token_msg server_name))) /\
  (forall c, get_tokens d' = Ok (Some c) ->
   fst (ensure_oauth_token flow server_name s) = Ok (access_token c)).
Proof.
  intros Hmiss Hflow. rewrite (ensure_oauth_token_slow_path flow server_name s Hmiss), Hflow.
  simpl. split.
  - intro H. rewrite H. reflexivity.
  - intros c H. rewrite H. reflexivity.
Qed.

(** C7: on a cache miss, the receiver is created, started, the preflight is
    issued and the receiver is stopped last, whatever the provider's flow
    does (returns, leaves no token, or raises); an exception the flow raises
    is the exception [ensure_oauth_token] raises. *)
Theorem ensure_oauth_token_stops_receiver (flow : provider_flow) (server_name : string)
        (s : state) :
  get_tokens (st_disk s) = Ok None ->
  st_trace (snd (ensure_oauth_token flow server_name s)) =
    st_trace s ++ [ReceiverCreated; ReceiverStarted; Preflight; ReceiverStopped] /\
  (forall e, snd (flow (st_disk s)) = Some e ->
   fst (ensure_oauth_token flow server_name s) = Err e).
Proof.
  intro Hmiss. rewrite (ensure_oauth_token_slow_path flow server_name s Hmiss). simpl.
  split; [reflexivity|].
  intros e He. rewrite He. reflexivity.
Qed.

(** C3 (the code misses the soft-fail contract): a record file holding
    valid JSON that is not an object (here [[]]) makes [_read] return a
    list, and [.get] on it raises [AttributeError] out of both [get_tokens]
    and [get_client_info]; a file that is not valid UTF-8 raises
    [UnicodeDecodeError], which [_read] does not catch. *)
Theorem get_raises_on_non_object_record :
  get_tokens (mkDisk (FJson (JArr [])) 384 18 true) = Err AttributeError /\
  get_client_info (mkDisk (FJson (JArr [])) 384 18 true) = Err AttributeError /\
  get_tokens (mkDisk FUndecodable 384 18 true) = Err UnicodeDecodeError /\
  get_client_info (mkDisk FUndecodable 384 18 true) = Err UnicodeDecodeError.
Proof. repeat split. Qed.

(** C8: after a completed [set_tokens c], [get_tokens] returns [c] in every
    field, and the [client_info] entry (raw, and as [get_client_info]
    reads it) is what it was before; symmetrically a completed
    [set_client_info] keeps the [tokens] entry. *)
Theorem set_tokens_roundtrip_keeps_sibling :
  (forall (c : credential) (d d' : disk), set_tokens c d = Ok d' ->
     get_tokens d' = Ok (Some c) /\
     record_entry "client_info" d' = record_entry "client_info" d /\
     get_client_info d' = get_client_info d) /\
  (forall (ci : client_info) (d d' : disk), set_client_info ci d = Ok d' ->
     record_entry "tokens" d' = record_entry "tokens" d /\
     get_tokens d' = get_tokens d).
Proof.
  split.
  - intros c d d' H. destruct (set_tokens_shape _ _ _ H) as (kv & Hr & Hc & _).
    assert (He : record_entry "client_info" d' = record_entry "client_info" d).
    { unfold record_entry. rewrite Hr, (read_json _ _ Hc). simpl.
      rewrite dict_get_set_other; [reflexivity|]. intro E. inversion E. }
    split; [|split; [exact He|]].
    + unfold get_tokens. rewrite (read_json _ _ Hc). simpl.
      rewrite dict_get_set_same. simpl. rewrite <- credential_validate_dump at 1.
      reflexivity.
    + rewrite !get_client_info_entry, He. reflexivity.
  - intros ci d d' H. destruct (set_client_info_shape _ _ _ H) as (kv & Hr & Hc & _).
    assert (He : record_entry "tokens" d' = record_entry "tokens" d).
    { unfold record_entry. rewrite Hr, (read_json _ _ Hc). simpl.
      rewrite dict_get_set_other; [reflexivity|]. intro E. inversion E. }
    split; [exact He|]. rewrite !get_tokens_entry, He. reflexivity.
Qed.

(** C9: a completed [set_tokens] or [set_client_info] leaves the record
    file with mode [0o600] (= 384). *)
Theorem set_leaves_mode_0600 :
  (forall (c : credential) (d d' : disk), set_tokens c d = Ok d' -> d_mode d' = 384%Z) /\
  (forall (ci : client_info) (d d' : disk), set_client_info ci d = Ok d' -> d_mode d' = 384%Z).
Proof.
  split.
  - intros c d d' H. destruct (set_tokens_shape _ _ _ H) as (kv & _ & _ & Hm). exact Hm.
  - intros ci d d' H. destruct (set_client_info_shape _ _ _ H) as (kv & _ & _ & Hm). exact Hm.
Qed.

(** C4, counterexample: the query carries [code=X], yet the response is 400
    and the waiter is rejected, because an [error] parameter is checked
    first. *)
Lemma callback_code_with_error_not_resolved :
  carries "code" "/callback?code=X&error=Y" /\
  do_GET "/callback?code=X&error=Y" Pending =
  (Ok (html_response 400 (_ERROR_HTML "Y")), Rejected (RuntimeError "OAuth error: Y")).
Proof. split; [exists "X"; vm_compute; auto | reflexivity]. Qed.

(** C4 (amended): for a request target that [urlparse] accepts, when no
    [error] parameter has a non-empty value and some [code] parameter has
    one, the response is 200 with the success page; a pending waiter is
    resolved with the first non-empty [code] value and the first non-empty
    [state] value (absent when there is none); a waiter that is already
    settled keeps its outcome. *)
Theorem callback_code_resolves (path : string) (fut : future) (c : string) (cs : list string) :
  url_ok path = true ->
  nonblank (param_values "error" path) = [] ->
  nonblank (param_values "code" path) = c :: cs ->
  fst (do_GET path fut) = Ok (html_response 200 _SUCCESS_HTML) /\
  (fut = Pending ->
   snd (do_GET path fut) = Resolved c (hd_error (nonblank (param_values "state" path)))) /\
  (fut <> Pending -> snd (do_GET path fut) = fut).
Proof.
  intros _ He Hc. rewrite (do_GET_code_branch path fut c cs He Hc). simpl.
  split; [reflexivity|].
  split; [intros ->; reflexivity|].
  destruct fut; simpl; congruence.
Qed.

(** C5, counterexample: [?error=] carries an [error] parameter, but
    [parse_qs] drops blank values, so the request takes the missing-code
    branch and the waiter stays pending. *)
Lemma callback_blank_error_not_rejected :
  carries "error" "/callback?error=" /\
  do_GET "/callback?error=" Pending =
  (Ok (html_response 400 (_ERROR_HTML "Missing code parameter")), Pending).
Proof. split; [exists ""; vm_compute; auto | reflexivity]. Qed.

(** C5 (amended): for a request target that [urlparse] accepts, when some
    [error] parameter has a non-empty value, the first such value [e] is
    embedded in the 400 failure page, and a pending waiter is rejected with
    [RuntimeError("OAuth error: " + e)]; a waiter that is already settled
    keeps its outcome. *)
Theorem callback_error_rejects (path : string) (fut : future) (e : string) (es : list string) :
  url_ok path = true ->
  nonblank (param_values "error" path) = e :: es ->
  fst (do_GET path fut) = Ok (html_response 400 (_ERROR_HTML e)) /\
  (fut = Pending -> snd (do_GET path fut) = Rejected (RuntimeError ("OAuth error: " ++ e))) /\
  (fut <> Pending -> snd (do_GET path fut) = fut).
Proof.
  intros _ He. rewrite (do_GET_error_branch path fut e es He). simpl.
  split; [reflexivity|].
  split; [intros ->; reflexivity|].
  destruct fut; simpl; congruence.
Qed.

(** C6, counterexample: the target [http://[x/callback] carries neither
    [code] nor [error], but its netloc holds ['['] without [']'], so
    [urlparse] raises [ValueError]: [do_GET] sends no response at all (no
    400 page) and the waiter stays as it was. *)
Lemma callback_unparsable_target_no_response :
  ~ carries "code" "http://[x/callback" /\
  ~ carries "error" "http://[x/callback" /\
  do_GET "http://[x/callback" Pending = (Err ValueError, Pending).
Proof.
  split; [apply no_values_not_carries; reflexivity|].
  split; [apply no_values_not_carries; reflexivity|reflexivity].
Qed.

(** C6 (amended): a request whose target [urlparse] accepts and that
    carries neither [code] nor [error] gets the 400 "Missing code
    parameter" page and leaves the waiter as it was; from a pending waiter,
    a later request with a non-empty [code] and no [error] still resolves
    it. *)
Theorem callback_missing_keeps_waiting (p1 p2 : string) (fut : future) :
  url_ok p1 = true -> ~ carries "code" p1 -> ~ carries "error" p1 ->
  do_GET p1 fut = (Ok (html_response 400 (_ERROR_HTML "Missing code parameter")), fut) /\
  (forall c cs, fut = Pending -> ~ carries "error" p2 ->
   nonblank (param_values "code" p2) = c :: cs ->
   snd (do_GET p2 (snd (do_GET p1 fut))) =
   Resolved c (hd_error (nonblank (param_values "state" p2)))).
Proof.
  intros Hu Hc He.
  assert (H1 : do_GET p1 fut =
               (Ok (html_response 400 (_ERROR_HTML "Missing code parameter")), fut)).
  { apply do_GET_missing_branch; [exact Hu| |].
    - rewrite (not_carries_no_values _ _ He). reflexivity.
    - rewrite (not_carries_no_values _ _ Hc). reflexivity. }
  split; [exact H1|].
  intros c cs -> He2 Hc2. rewrite H1. simpl.
  rewrite (do_GET_code_branch p2 Pending c cs); [reflexivity| |exact Hc2].
  rewrite (not_carries_no_values _ _ He2). reflexivity.
Qed.

(** C10, counterexample: with [error=] blank and [code=X], the error is
    dropped by [parse_qs], the response is 200 and the waiter is resolved
    with [X]. *)
Lemma callback_blank_error_code_resolves :
  carries "error" "/callback?error=&code=X" /\
  carries "code" "/callback?error=&code=X" /\
  do_GET "/callback?error=&code=X" Pending =
  (Ok (html_response 200 _SUCCESS_HTML), Resolved "X" None).
Proof.
  split; [exists ""; vm_compute; auto|].
  split; [exists "X"; vm_compute; auto | reflexivity].
Qed.

(** C10 (amended): for a request target that [urlparse] accepts:
    - when some [error] parameter has a non-empty value, a [code] parameter
      in the same query is ignored: the response is the 400 failure page, a
      pending waiter is rejected with the error, and the request never
      resolves the waiter with a code;
    - a blank [error=] is dropped by [parse_qs]: when every [error] value is
      blank and some [code] value is not, the response is 200 and a pending
      waiter is resolved with the first non-empty code. *)
Theorem callback_error_precedes_code :
  (forall (path : string) (fut : future) (e : string) (es : list string) (c : string),
   url_ok path = true ->
   nonblank (param_values "error" path) = e :: es ->
   In ("code", c) (query_fields path) ->
   fst (do_GET path fut) = Ok (html_response 400 (_ERROR_HTML e)) /\
   (fut = Pending -> snd (do_GET path fut) = Rejected (RuntimeError ("OAuth error: " ++ e))) /\
   (forall c' st, snd (do_GET path fut) = Resolved c' st -> fut = Resolved c' st)) /\
  (forall (path : string) (c : string) (cs : list string),
   url_ok path = true ->
   carries "error" path ->
   nonblank (param_values "error" path) = [] ->
   nonblank (param_values "code" path) = c :: cs ->
   do_GET path Pending =
   (Ok (html_response 200 _SUCCESS_HTML),
    Resolved c (hd_error (nonblank (param_values "state" path))))).
Proof.
  split.
  - intros path fut e es c _ He _. rewrite (do_GET_error_branch path fut e es He). simpl.
    split; [reflexivity|].
    split; [intros ->; reflexivity|].
    intros c' st. destruct fut; simpl; congruence.
  - intros path c cs _ _ He Hc. rewrite (do_GET_code_branch path Pending c cs He Hc).
    reflexivity.
Qed.

(** ** Witnesses *)

Lemma ensure_oauth_token_cache_hit_witness :
  get_tokens (st_disk (mkState disk_cached [])) = Ok (Some tok_abc) /\
  ensure_oauth_token flow_writes_fresh "myserver" (mkState disk_cached []) =
  (Ok "abc123", mkState disk_cached []).
Proof.
  split; [vm_compute; reflexivity|].
  apply (ensure_oauth_token_cache_hit flow_writes_fresh "myserver" (mkState disk_cached []) tok_abc).
  vm_compute. reflexivity.
Defined.

Lemma ensure_oauth_token_rereads_after_flow_witness :
  get_tokens fresh_disk = Ok None /\
  fst (ensure_oauth_token flow_writes_fresh "new-server" (mkState fresh_disk [])) = Ok "fresh_tok" /\
  fst (ensure_oauth_token flow_writes_nothing "empty" (mkState fresh_disk [])) =
  Err (RuntimeError (no_token_msg "empty")).
Proof.
  split; [reflexivity|]. split.
  - destruct (ensure_oauth_token_rereads_after_flow flow_writes_fresh "new-server"
                (mkState fresh_disk []) (fst (flow_writes_fresh fresh_disk)))
      as [_ H]; [reflexivity|reflexivity|].
    apply (H (mkCredential "fresh_tok" Bearer None None None)). vm_compute. reflexivity.
  - destruct (ensure_oauth_token_rereads_after_flow flow_writes_nothing "empty"
                (mkState fresh_disk []) fresh_disk)
      as [H _]; [reflexivity|reflexivity|].
    apply H. reflexivity.
Defined.

Lemma ensure_oauth_token_stops_receiver_witness :
  st_trace (snd (ensure_oauth_token flow_discovery_fails "srv" (mkState fresh_disk []))) =
    [ReceiverCreated; ReceiverStarted; Preflight; ReceiverStopped] /\
  fst (ensure_oauth_token flow_discovery_fails "srv" (mkState fresh_disk [])) =
    Err (ProviderError "discovery failed").
Proof.
  destruct (ensure_oauth_token_stops_receiver flow_discovery_fails "srv" (mkState fresh_disk []))
    as [Ht He]; [reflexivity|].
  split; [exact Ht|]. apply He. reflexivity.
Defined.

Lemma set_tokens_roundtrip_keeps_sibling_witness :
  get_tokens disk_tokens_and_client_info = Ok (Some tok_abc) /\
  get_client_info disk_tokens_and_client_info = get_client_info disk_only_client_info /\
  get_tokens disk_tokens_and_other_client_info = get_tokens disk_tokens_and_client_info.
Proof.
  destruct set_tokens_roundtrip_keeps_sibling as [A B].
  destruct (A tok_abc disk_only_client_info disk_tokens_and_client_info) as (H1 & _ & H2);
    [vm_compute; reflexivity|].
  destruct (B ci_other disk_tokens_and_client_info disk_tokens_and_other_client_info) as (_ & H3);
    [vm_compute; reflexivity|].
  split; [exact H1|]. split; [exact H2|exact H3].
Defined.

Lemma set_leaves_mode_0600_witness :
  d_mode (mkDisk (FJson (JObj [("tokens", credential_dump tok_abc)])) 384 18 true) = 384%Z /\
  d_mode disk_only_client_info = 384%Z.
Proof.
  destruct set_leaves_mode_0600 as [A B]. split.
  - apply (A tok_abc fresh_disk). vm_compute. reflexivity.
  - apply (B ci_cid fresh_disk). vm_compute. reflexivity.
Defined.

Lemma callback_code_resolves_witness :
  fst (do_GET "/callback?code=AUTHCODE&state=STATE123" Pending) =
    Ok (html_response 200 _SUCCESS_HTML) /\
  snd (do_GET "/callback?code=AUTHCODE&state=STATE123" Pending) =
    Resolved "AUTHCODE" (Some "STATE123") /\
  snd (do_GET "/callback?code=CODE_ONLY" Pending) = Resolved "CODE_ONLY" None.
Proof.
  destruct (callback_code_resolves "/callback?code=AUTHCODE&state=STATE123" Pending "AUTHCODE" [])
    as [H1 [H2 _]]; [reflexivity|reflexivity|reflexivity|].
  destruct (callback_code_resolves "/callback?code=CODE_ONLY" Pending "CODE_ONLY" [])
    as [_ [H3 _]]; [reflexivity|reflexivity|reflexivity|].
  split; [exact H1|]. split; [exact (H2 eq_refl)|exact (H3 eq_refl)].
Defined.

Lemma callback_error_rejects_witness :
  fst (do_GET "/callback?error=access_denied" Pending) =
    Ok (html_response 400 (_ERROR_HTML "access_denied")) /\
  snd (do_GET "/callback?error=access_denied" Pending) =
    Rejected (RuntimeError "OAuth error: access_denied").
Proof.
  destruct (callback_error_rejects "/callback?error=access_denied" Pending "access_denied" [])
    as [H1 [H2 _]]; [reflexivity|reflexivity|].
  split; [exact H1|exact (H2 eq_refl)].
Defined.

Lemma callback_missing_keeps_waiting_witness :
  do_GET "/callback?foo=bar" Pending =
    (Ok (html_response 400 (_ERROR_HTML "Missing code parameter")), Pending) /\
  snd (do_GET "/callback?code=CODE_ONLY" (snd (do_GET "/callback?foo=bar" Pending))) =
    Resolved "CODE_ONLY" None.
Proof.
  destruct (callback_missing_keeps_waiting "/callback?foo=bar" "/callback?code=CODE_ONLY" Pending)
    as [H1 H2];
    [reflexivity|apply no_values_not_carries; reflexivity
    |apply no_values_not_carries; reflexivity|].
  split; [exact H1|].
  apply (H2 "CODE_ONLY" []); [reflexivity|apply no_values_not_carries; reflexivity|reflexivity].
Defined.

Lemma callback_error_precedes_code_witness :
  fst (do_GET "/callback?error=access_denied&code=X" Pending) =
    Ok (html_response 400 (_ERROR_HTML "access_denied")) /\
  snd (do_GET "/callback?error=access_denied&code=X" Pending) =
    Rejected (RuntimeError "OAuth error: access_denied") /\
  do_GET "/callback?error=&code=X&state=S" Pending =
    (Ok (html_response 200 _SUCCESS_HTML), Resolved "X" (Some "S")).
Proof.
  destruct callback_error_precedes_code as [Hprec Hblank].
  destruct (Hprec "/callback?error=access_denied&code=X" Pending "access_denied" [] "X")
    as [H1 [H2 _]]; [reflexivity|reflexivity|vm_compute; auto|].
  split; [exact H1|]. split; [exact (H2 eq_refl)|].
  apply (Hblank "/callback?error=&code=X&state=S" "X" []);
    [reflexivity|exists ""; vm_compute; auto|reflexivity|reflexivity].
Defined.

(** ** Further properties: the callback listener *)

Lemma ascii_eqb_nat (c d : ascii) : Ascii.eqb c d = Nat.eqb (nat_of_ascii c) (nat_of_ascii d).
Proof.
  destruct (Ascii.eqb_spec c d) as [->|Hne]; [symmetry; apply Nat.eqb_refl|].
  symmetry. apply Nat.eqb_neq. intro H. apply Hne.
  rewrite <- (ascii_nat_embedding c), <- (ascii_nat_embedding d), H. reflexivity.
Qed.

Lemma plain_prefix_cons (c : ascii) (pre : string) :
  plain_prefix (String c pre) = true ->
  Ascii.eqb c "?" = false /\ Ascii.eqb c "#" = false /\
  (let n := nat_of_ascii c in (n =? 9)%nat || (n =? 10)%nat || (n =? 13)%nat) = false /\
  plain_prefix pre = true.
Proof.
  unfold plain_prefix. simpl. intro H. apply andb_prop in H as [H1 H2].
  rewrite !ascii_eqb_nat. change (nat_of_ascii "?") with 63%nat.
  change (nat_of_ascii "#") with 35%nat.
  destruct (nat_of_ascii c =? 63)%nat, (nat_of_ascii c =? 35)%nat,
           (nat_of_ascii c =? 9)%nat, (nat_of_ascii c =? 10)%nat,
           (nat_of_ascii c =? 13)%nat; simpl in *; try discriminate; auto.
Qed.

Lemma remove_unsafe_plain (pre q : string) :
  plain_prefix pre = true ->
  remove_unsafe (pre ++ String "?" q)%string = (pre ++ String "?" (remove_unsafe q))%string.
Proof.
  induction pre as [|c pre' IH]; intro Hp; [reflexivity|].
  destruct (plain_prefix_cons c pre' Hp) as (_ & _ & Hu & Hp').
  simpl. simpl in Hu. rewrite Hu, (IH Hp'). reflexivity.
Qed.

Lemma split_once_q_plain (pre x : string) :
  plain_prefix pre = true -> split_once "?" (pre ++ String "?" x)%string = Some (pre, x).
Proof.
  induction pre as [|c pre' IH]; intro Hp; [reflexivity|].
  destruct (plain_prefix_cons c pre' Hp) as (Hc & _ & _ & Hp').
  simpl. rewrite Hc, (IH Hp'). reflexivity.
Qed.

Lemma split_once_hash_plain (pre x : string) :
  plain_prefix pre = true ->
  split_once "#" (pre ++ String "?" x)%string =
  match split_once "#" x with
  | Some (a, b) => Some ((pre ++ String "?" a)%string, b)
  | None => None
  end.
Proof.
  induction pre as [|c pre' IH]; intro Hp.
  - simpl. destruct (split_once "#" x) as [[a b]|]; reflexivity.
  - destruct (plain_prefix_cons c pre' Hp) as (_ & Hc & _ & Hp').
    simpl. rewrite Hc, (IH Hp'). destruct (split_once "#" x) as [[a b]|]; reflexivity.
Qed.

Lemma remove_unsafe_plain_id (x : string) :
  plain_prefix x = true -> remove_unsafe x = x.
Proof.
  induction x as [|c x' IH]; intro Hp; [reflexivity|].
  destruct (plain_prefix_cons c x' Hp) as (_ & _ & Hu & Hp').
  simpl. simpl in Hu. rewrite Hu, (IH Hp'). reflexivity.
Qed.

(** On a target in origin form, [urlparse] only cuts the fragment and the
    query. *)
Lemma urlparse_query_origin (p : string) :
  origin_form p = true ->
  urlparse_query p =
  Ok (let u := remove_unsafe p in
      let u := match split_once "#" u with Some (a, _) => a | None => u end in
      match split_once "?" u with Some (_, q) => q | None => EmptyString end).
Proof.
  destruct p as [|s r]; [discriminate|]. unfold origin_form.
  intro H. apply andb_prop in H as [Hs Hr]. apply Ascii.eqb_eq in Hs. subst s.
  unfold urlparse_query.
  change (lstrip_c0 (String "/" r)) with (String "/" r).
  change (remove_unsafe (String "/" r)) with (String "/" (remove_unsafe r)).
  change (strip_scheme (String "/" (remove_unsafe r))) with (String "/" (remove_unsafe r)).
  destruct (remove_unsafe r) as [|c r'] eqn:E; [reflexivity|].
  apply negb_true_iff in Hr. simpl Ascii.eqb at 1. cbn - [split_once].
  rewrite Hr. reflexivity.
Qed.

Lemma origin_form_plain (pre q : string) :
  origin_form pre = true -> plain_prefix pre = true ->
  origin_form (pre ++ String "?" q)%string = true.
Proof.
  destruct pre as [|s r]; [discriminate|]. unfold origin_form.
  intros H Hp. apply andb_prop in H as [Hs Hr].
  destruct (plain_prefix_cons s r Hp) as (_ & _ & _ & Hp').
  simpl. rewrite Hs. simpl.
  rewrite (remove_unsafe_plain r q Hp'). rewrite (remove_unsafe_plain_id r Hp') in Hr.
  destruct r as [|c r']; [reflexivity|exact Hr].
Qed.

Lemma urlparse_query_plain (pre q : string) :
  origin_form pre = true -> plain_prefix pre = true ->
  urlparse_query (pre ++ String "?" q)%string =
  Ok (match split_once "#" (remove_unsafe q) with
      | Some (a, _) => a
      | None => remove_unsafe q
      end).
Proof.
  intros Ho Hp. rewrite (urlparse_query_origin _ (origin_form_plain pre q Ho Hp)).
  cbv zeta. f_equal.
  rewrite (remove_unsafe_plain pre q Hp), (split_once_hash_plain pre _ Hp).
  destruct (split_once "#" (remove_unsafe q)) as [[a b]|];
    rewrite (split_once_q_plain pre _ Hp); reflexivity.
Qed.

Lemma do_GET_settled_aux (p : string) (fut : future) :
  fut <> Pending -> snd (do_GET p fut) = fut.
Proof.
  intro Hf. unfold do_GET. cbv zeta.
  destruct fut as [|c st|e]; [congruence| |];
  repeat match goal with
         | |- context [match ?x with _ => _ end] => destruct x
         end; reflexivity.
Qed.

Lemma serve_settled_aux (ps : list string) (fut : future) :
  fut <> Pending -> serve ps fut = fut.
Proof.
  revert fut. induction ps as [|p ps IH]; intros fut Hf; [reflexivity|].
  unfold serve. simpl. rewrite (do_GET_settled_aux p fut Hf). apply IH, Hf.
Qed.

(** Extra X1 (OAuthCallbackServer._Handler.do_GET): the handler never looks
    at the path before the ['?']. Any two origin-form targets that differ
    only in such a prefix (a path starting with a single ['/'], without
    ['?'], ['#'], tab, CR or LF) get the same response and leave the waiter
    in the same state, so a request to [/favicon.ico?code=X] settles the
    waiter exactly like one to [/callback?code=X]. *)
Theorem do_GET_ignores_path (pre pre' q : string) (fut : future) :
  origin_form pre = true -> plain_prefix pre = true ->
  origin_form pre' = true -> plain_prefix pre' = true ->
  do_GET (pre ++ String "?" q)%string fut = do_GET (pre' ++ String "?" q)%string fut.
Proof.
  intros Ho Hp Ho' Hp'. unfold do_GET.
  rewrite (urlparse_query_plain pre q Ho Hp), (urlparse_query_plain pre' q Ho' Hp').
  reflexivity.
Qed.

(** Extra X2 (OAuthCallbackServer._Handler.do_GET): once the waiter holds a
    code or an error, no later request changes it, whatever it carries. *)
Theorem serve_settled_stable (ps : list string) (fut : future) :
  fut <> Pending -> serve ps fut = fut.
Proof. exact (serve_settled_aux ps fut). Qed.

(** Extra X3 (OAuthCallbackServer._Handler.do_GET): the first request that
    settles the waiter decides the outcome; requests before it left the
    waiter pending and requests after it are ignored. *)
Theorem serve_first_settling_wins (ps1 ps2 : list string) (p : string) :
  serve ps1 Pending = Pending ->
  snd (do_GET p Pending) <> Pending ->
  serve (ps1 ++ p :: ps2) Pending = snd (do_GET p Pending).
Proof.
  intros H1 H2. unfold serve. rewrite fold_left_app. simpl.
  fold (serve ps1 Pending). rewrite H1.
  exact (serve_settled_aux ps2 _ H2).
Qed.

(** Extra X24 (OAuthCallbackServer._Handler.do_GET, urllib.parse.urlsplit):
    a target in origin form never makes the handler raise: [urlparse]
    accepts it and the client always gets a response. *)
Theorem do_GET_origin_form_responds (p : string) (fut : future) :
  origin_form p = true ->
  url_ok p = true /\ exists r, fst (do_GET p fut) = Ok r.
Proof.
  intro Ho. unfold url_ok, do_GET. rewrite (urlparse_query_origin p Ho).
  split; [reflexivity|]. cbv zeta.
  repeat match goal with
         | |- context [match ?x with _ => _ end] => destruct x
         end; eexists; reflexivity.
Qed.


(** ** Further properties: the token storage *)

Lemma dict_set_twice (k : string) (v1 v2 : json) (kv : list (string * json)) :
  dict_set k v2 (dict_set k v1 kv) = dict_set k v2 kv.
Proof.
  induction kv as [|[k' v'] kv' IH]; simpl.
  - rewrite String.eqb_refl. reflexivity.
  - destruct (String.eqb k k') eqn:E; simpl; rewrite E; [reflexivity|rewrite IH; reflexivity].
Qed.


(** Extra X7 (FileTokenStorage.set_tokens): the last write wins. Once a
    [set_tokens] has completed, a second one leaves the file exactly as if
    only the second had run. *)
Theorem set_tokens_last_write_wins (c1 c2 : credential) (d d1 : disk) :
  set_tokens c1 d = Ok d1 -> set_tokens c2 d1 = set_tokens c2 d.
Proof.
  unfold set_tokens at 1. intro H.
  destruct (_read d) as [v|e] eqn:Er; [|discriminate].
  destruct v; try discriminate. simpl in H.
  unfold _write, write_text, chmod in H.
  destruct (d_writable d) eqn:Ew; [|discriminate]. injection H as <-.
  unfold set_tokens. unfold _read at 1. simpl. rewrite Er. simpl.
  unfold _write, write_text, chmod. simpl. rewrite Ew, dict_set_twice. reflexivity.
Qed.

(** ** Further properties: ensure_oauth_token *)

Lemma ensure_read_error_aux (flow : provider_flow) (server_name : string) (s : state) (e : exn) :
  get_tokens (st_disk s) = Err e -> ensure_oauth_token flow server_name s = (Err e, s).
Proof. intro H. unfold ensure_oauth_token, bind, read_disk. rewrite H. reflexivity. Qed.

(** Extra X9 (ensure_oauth_token): after a call that returned token [t],
    a second call returns [t] again without any further step, whatever the
    provider would now do. *)
Theorem ensure_oauth_token_second_call (flow flow' : provider_flow) (server_name : string)
        (s s' : state) (t : string) :
  ensure_oauth_token flow server_name s = (Ok t, s') ->
  ensure_oauth_token flow' server_name s' = (Ok t, s').
Proof.
  intro H. destruct (get_tokens (st_disk s)) as [[c|]|e] eqn:G.
  - unfold ensure_oauth_token, bind, read_disk in H. rewrite G in H.
    injection H as <- <-. unfold ensure_oauth_token, bind, read_disk. rewrite G. reflexivity.
  - rewrite (ensure_oauth_token_slow_path flow server_name s G) in H.
    destruct (flow (st_disk s)) as [d' [e|]]; simpl in H; [discriminate|].
    destruct (get_tokens d') as [[c|]|e] eqn:G'; try discriminate.
    injection H as <- <-. unfold ensure_oauth_token, bind, read_disk. simpl. rewrite G'.
    reflexivity.
  - rewrite (ensure_read_error_aux flow server_name s e G) in H. discriminate.
Qed.

(** ** Further properties: configuration loading *)

Lemma str_app_assoc (a b c : string) : ((a ++ b) ++ c)%string = (a ++ (b ++ c))%string.
Proof. induction a as [|x a IH]; simpl; [reflexivity|rewrite IH; reflexivity]. Qed.

Lemma str_app_nil_r (a : string) : (a ++ EmptyString)%string = a.
Proof. induction a as [|x a IH]; simpl; [reflexivity|rewrite IH; reflexivity]. Qed.

Lemma mem_char_cons (c x : ascii) (s : string) :
  mem_char c (String x s) = false -> x <> c /\ mem_char c s = false.
Proof.
  unfold mem_char. simpl. intro H. apply orb_false_elim in H as [H1 H2].
  split; [|exact H2]. intro E. subst. rewrite Ascii.eqb_refl in H1. discriminate.
Qed.

Lemma resolve_scan_no_close (env : list (string * string)) (n : nat) :
  forall s, String.length s <= n -> mem_char "}" s = false ->
  resolve_scan env Outside s = s /\
  (forall acc, resolve_scan env (InName acc) s = ("${" ++ acc ++ s)%string).
Proof.
  induction n as [|n IH]; intros s Hl Hm.
  - destruct s; [|simpl in Hl; lia]. split; [reflexivity|].
    intro acc. simpl. rewrite str_app_nil_r. reflexivity.
  - destruct s as [|c s']; [split; [reflexivity|intro acc; simpl; rewrite str_app_nil_r; reflexivity]|].
    simpl in Hl. destruct (mem_char_cons _ _ _ Hm) as [Hc Hm'].
    destruct (IH s' ltac:(lia) Hm') as [IO II].
    split.
    + simpl. destruct (Ascii.eqb_spec c "$") as [->|Hd]; [|rewrite IO; reflexivity].
      destruct s' as [|c1 [|c2 s2]]; try (rewrite IO; reflexivity).
      destruct (Ascii.eqb_spec c1 "{") as [->|H1]; [|rewrite IO; reflexivity].
      destruct (Ascii.eqb_spec c2 "}") as [->|H2]; [rewrite IO; reflexivity|].
      destruct (mem_char_cons _ _ _ Hm') as [_ Hm2].
      destruct (mem_char_cons _ _ _ Hm2) as [_ Hm3].
      simpl in Hl. destruct (IH s2 ltac:(lia) Hm3) as [_ II2].
      rewrite II2. reflexivity.
    + intro acc. simpl. destruct (Ascii.eqb_spec c "}") as [E|_]; [contradiction|].
      rewrite II, str_app_assoc. reflexivity.
Qed.

(** Extra X10 (_resolve_env_vars): a string without ['}'] comes back
    unchanged: with no closing brace there is no [${NAME}] to replace, and
    an unterminated ["${"] is kept literally. *)
Theorem resolve_env_vars_no_brace (env : list (string * string)) (s : string) :
  mem_char "}" s = false -> _resolve_env_vars env s = s.
Proof.
  intro H. exact (proj1 (resolve_scan_no_close env (String.length s) s (le_n _) H)).
Qed.

Lemma resolve_scan_name (env : list (string * string)) (x post acc : string) :
  mem_char "}" x = false ->
  resolve_scan env (InName acc) (x ++ String "}" post)%string =
  (env_get env (acc ++ x) ++ resolve_scan env Outside post)%string.
Proof.
  revert acc. induction x as [|c x IH]; intros acc Hm.
  - simpl. rewrite str_app_nil_r. reflexivity.
  - destruct (mem_char_cons _ _ _ Hm) as [Hc Hm']. simpl.
    destruct (Ascii.eqb_spec c "}"); [contradiction|].
    rewrite (IH _ Hm'), str_app_assoc. reflexivity.
Qed.

(** Extra X11 (_resolve_env_vars): the first [${NAME}] after a text
    without ['$'] is replaced by the variable's value (empty when unset),
    and scanning resumes after the closing brace: the inserted value is
    never scanned again, so a value that itself holds [${...}] stays as it
    is. *)
Theorem resolve_env_vars_subst (env : list (string * string)) (pre name post : string) :
  mem_char "$" pre = false -> name <> EmptyString -> mem_char "}" name = false ->
  _resolve_env_vars env (pre ++ "${" ++ name ++ String "}" post)%string =
  (pre ++ env_get env name ++ _resolve_env_vars env post)%string.
Proof.
  unfold _resolve_env_vars. intros Hp Hn Hm.
  induction pre as [|c pre IH].
  - destruct name as [|n1 name']; [contradiction|].
    destruct (mem_char_cons _ _ _ Hm) as [H1 Hm'].
    simpl. destruct (Ascii.eqb_spec n1 "}"); [contradiction|]. simpl.
    rewrite resolve_scan_name by exact Hm'. reflexivity.
  - destruct (mem_char_cons _ _ _ Hp) as [Hc Hp']. simpl.
    destruct (Ascii.eqb_spec c "$"); [contradiction|].
    f_equal. exact (IH Hp').
Qed.

Lemma dict_get_resolved (env : list (string * string)) (k : string) (kv : list (string * json)) :
  dict_get k (map (fun kx => (fst kx, _resolve_recursive env (snd kx))) kv) =
  option_map (_resolve_recursive env) (dict_get k kv).
Proof.
  induction kv as [|[k' v] kv IH]; simpl; [reflexivity|].
  destruct (String.eqb k k'); [reflexivity|exact IH].
Qed.

Lemma resolve_not_obj (env : list (string * string)) (v : json) :
  (forall kv, v <> JObj kv) -> forall kv, _resolve_recursive env v <> JObj kv.
Proof. intros H kv. destruct v; simpl; try discriminate. exfalso. exact (H kv0 eq_refl). Qed.

Lemma servers_of_names (items : list (string * json)) (scs : list server_config) :
  servers_of items = inl scs -> map sc_name scs = map fst items.
Proof.
  revert scs. induction items as [|[name srv] items IH]; intros scs H; simpl in H.
  - injection H as <-. reflexivity.
  - destruct (server_of name srv) as [sc|e] eqn:Es; [|discriminate].
    destruct (servers_of items) as [scs'|e]; [|discriminate].
    injection H as <-. simpl. rewrite (IH scs' eq_refl).
    destruct srv; try discriminate. injection Es as <-. reflexivity.
Qed.

(** Extra X13 (load_config): a [servers] entry that is present but not a
    dict, e.g. an empty [servers:] (YAML null) or a list, makes loading
    fail with [AttributeError] ([.items()] is called on it) instead of
    giving no servers. *)
Theorem load_servers_non_dict_servers (env : list (string * string))
        (raw : list (string * json)) (v : json) :
  dict_get "servers" raw = Some v -> (forall kv, v <> JObj kv) ->
  load_servers env (JObj raw) = inr AppAttributeError.
Proof.
  intros H Hv. unfold load_servers, get_default. simpl. rewrite dict_get_resolved, H. simpl.
  destruct (_resolve_recursive env v) eqn:E; try reflexivity.
  exfalso. exact (resolve_not_obj env v Hv kv E).
Qed.

Lemma py_type_name_resolved (env : list (string * string)) (v : json) :
  py_type_name (_resolve_recursive env v) = py_type_name v.
Proof. destruct v; reflexivity. Qed.

(** Extra X14 (load_config): a YAML document that is not a mapping (an
    empty file loads as null) is refused with the [ValueError]
    "Expected config to be a dict, got <type>", naming the type of the
    document as loaded. *)
Theorem load_servers_non_dict_config (env : list (string * string)) (loaded : json) :
  (forall kv, loaded <> JObj kv) ->
  load_servers env loaded =
  inr (AppValueError ("Expected config to be a dict, got " ++ py_type_name loaded)).
Proof.
  intro H. unfold load_servers. rewrite <- (py_type_name_resolved env loaded).
  destruct (_resolve_recursive env loaded) eqn:E; try reflexivity.
  exfalso. exact (resolve_not_obj env loaded H kv E).
Qed.

(** Extra X15 (load_config, _resolve_recursive): the loaded servers are
    named by the keys of the [servers] dict, in file order and exactly as
    written: [${VAR}] references are resolved in values only, never in
    server names. *)
Theorem load_servers_names (env : list (string * string)) (raw items : list (string * json))
        (scs : list server_config) :
  dict_get "servers" raw = Some (JObj items) -> load_servers env (JObj raw) = inl scs ->
  map sc_name scs = map fst items.
Proof.
  intros H Hl. unfold load_servers, get_default in Hl. simpl in Hl.
  rewrite dict_get_resolved, H in Hl. simpl in Hl.
  rewrite (servers_of_names _ _ Hl), map_map. reflexivity.
Qed.

(** ** Further properties: ConnectionManager *)

Lemma open_session_cases (dial : dialer) (kind : string) (req : json) (cfg : server_config)
      (cm : conn_mgr) (r : app_result nat) (cm1 : conn_mgr) :
  open_session dial kind req cfg cm = (r, cm1) ->
  cm_sessions cm1 = cm_sessions cm /\
  (forall s, r = inl s ->
     s = cm_next cm /\
     cm1 = mkConnMgr (cm_sessions cm) (S (cm_next cm)) (cm_attempts cm ++ [sc_name cfg])) /\
  (forall e, r = inr e -> cm_next cm1 = cm_next cm).
Proof.
  unfold open_session. intro H.
  destruct req; try (destruct (dial kind cfg) as [msg|]; injection H as <- <-;
                     repeat split; intros; try discriminate; simpl;
                     match goal with
                     | Hs : inl _ = inl _ |- _ => injection Hs as <-; auto
                     | _ => reflexivity
                     end).
Qed.

Lemma dispatch_cases (dial : dialer) (cfg : server_config) (cm : conn_mgr)
      (r : app_result nat) (cm1 : conn_mgr) :
  dispatch dial cfg cm = (r, cm1) ->
  cm_sessions cm1 = cm_sessions cm /\
  (forall s, r = inl s ->
     s = cm_next cm /\
     cm1 = mkConnMgr (cm_sessions cm) (S (cm_next cm)) (cm_attempts cm ++ [sc_name cfg])) /\
  (forall e, r = inr e -> cm_next cm1 = cm_next cm).
Proof.
  unfold dispatch. intro H.
  destruct (sc_transport cfg);
    try (injection H as <- <-; repeat split; intros; discriminate).
  destruct (String.eqb s "stdio"); [exact (open_session_cases _ _ _ _ _ _ _ H)|].
  destruct (String.eqb s "http"); [exact (open_session_cases _ _ _ _ _ _ _ H)|].
  injection H as <- <-. repeat split; intros; discriminate.
Qed.

Lemma session_get_app_new (name : string) (s : nat) (d : list (string * nat)) :
  session_get name d = None -> session_get name (d ++ [(name, s)]) = Some s.
Proof.
  induction d as [|[n s'] d IH]; simpl; intro H.
  - rewrite String.eqb_refl. reflexivity.
  - destruct (String.eqb name n); [discriminate|exact (IH H)].
Qed.

Lemma session_get_in (name : string) (s : nat) (d : list (string * nat)) :
  session_get name d = Some s -> In (name, s) d.
Proof.
  induction d as [|[n s'] d IH]; simpl; intro H; [discriminate|].
  destruct (String.eqb_spec name n) as [->|_]; [injection H as <-; left; reflexivity|].
  right. exact (IH H).
Qed.


(** Extra X16 (ConnectionManager.connect): connections are cached by server
    name. After [connect] returned a session, any later [connect] with a
    config of the same name returns that same session and changes nothing,
    even if that config names another transport, command or URL. *)
Theorem connect_memoized (dial dial' : dialer) (cfg cfg' : server_config) (cm cm' : conn_mgr)
        (s : nat) :
  connect dial cfg cm = (inl s, cm') -> sc_name cfg' = sc_name cfg ->
  connect dial' cfg' cm' = (inl s, cm').
Proof.
  intros H Hn. unfold connect in H.
  destruct (session_get (sc_name cfg) (cm_sessions cm)) as [s0|] eqn:G.
  - injection H as <- <-. unfold connect. rewrite Hn, G. reflexivity.
  - destruct (dispatch dial cfg cm) as [r cm1] eqn:D.
    destruct (dispatch_cases _ _ _ _ _ D) as (Hs & _ & _).
    destruct r as [s1|e]; [|discriminate]. injection H as <- <-.
    unfold connect. simpl. rewrite Hn, Hs, (session_get_app_new _ _ _ G). reflexivity.
Qed.

(** Extra X18 (ConnectionManager.connect, _connect_stdio, _connect_http):
    a failed [connect] caches nothing and numbers no session, so the next
    [connect] for that server tries again. *)
Theorem connect_failure_not_cached (dial : dialer) (cfg : server_config) (cm cm' : conn_mgr)
        (e : app_exn) :
  connect dial cfg cm = (inr e, cm') ->
  cm_sessions cm' = cm_sessions cm /\ cm_next cm' = cm_next cm /\
  session_get (sc_name cfg) (cm_sessions cm') = None.
Proof.
  intro H. unfold connect in H.
  destruct (session_get (sc_name cfg) (cm_sessions cm)) as [s0|] eqn:G; [discriminate|].
  destruct (dispatch dial cfg cm) as [r cm1] eqn:D.
  destruct (dispatch_cases _ _ _ _ _ D) as (Hs & _ & Hn).
  destruct r as [s1|e1]; [discriminate|]. injection H as <- <-.
  rewrite Hs. repeat split; [exact (Hn e1 eq_refl)|exact G].
Qed.



(** Extra X20 (ConnectionManager.cleanup, connect): after a [cleanup] that
    closed everything, [connect] never hands out a closed session: a
    success is a new connection attempt, with a session different from
    every one the manager held before. *)
Theorem connect_after_cleanup (dial : dialer) (cfg : server_config) (cm cm1 cm2 : conn_mgr)
        (s : nat) :
  cm_wf cm -> cleanup None cm = inl cm1 -> connect dial cfg cm1 = (inl s, cm2) ->
  cm_attempts cm2 = cm_attempts cm ++ [sc_name cfg] /\
  (forall n s', In (n, s') (cm_sessions cm) -> s' <> s).
Proof.
  intros [_ Hlt] Hc H. injection Hc as <-. unfold connect in H. simpl in H.
  destruct (dispatch dial cfg (mkConnMgr [] (cm_next cm) (cm_attempts cm))) as [r c1] eqn:D.
  destruct (dispatch_cases _ _ _ _ _ D) as (_ & Hok & _).
  destruct r as [s1|e]; [|discriminate]. injection H as <- <-.
  destruct (Hok s1 eq_refl) as [-> ->]. simpl. split; [reflexivity|].
  intros n s' Hin. pose proof (Hlt n s' Hin). lia.
Qed.

(** ** Further properties: _reauth *)

Lemma list_ascii_of_string_app (a b : string) :
  list_ascii_of_string (a ++ b)%string = list_ascii_of_string a ++ list_ascii_of_string b.
Proof. induction a as [|c a IH]; simpl; [reflexivity|rewrite IH; reflexivity]. Qed.

Lemma str_app_inv_tail (a b s : string) : (a ++ s)%string = (b ++ s)%string -> a = b.
Proof.
  intro H. apply (f_equal list_ascii_of_string) in H.
  rewrite !list_ascii_of_string_app in H. apply app_inv_tail in H.
  rewrite <- (string_of_list_ascii_of_string a), <- (string_of_list_ascii_of_string b), H.
  reflexivity.
Qed.

Lemma entry_get_remove_other (f g : string) (es : list (string * entry_kind)) :
  f <> g -> entry_get f (remove_entry g es) = entry_get f es.
Proof.
  intro Hne. induction es as [|[n k] es IH]; simpl; [reflexivity|].
  destruct (String.eqb_spec n g) as [->|Hng]; simpl.
  - destruct (String.eqb_spec f g); [contradiction|exact IH].
  - destruct (String.eqb f n); [reflexivity|exact IH].
Qed.

(** Extra X23 (_reauth): if the path [<name>.json] of a listed name is a
    directory, [unlink] raises and the command fails, whatever the order
    of the names. *)
Theorem reauth_clear_directory_fails (names : list string) (es : list (string * entry_kind))
        (name : string) :
  In name names -> entry_get (name ++ ".json")%string es = Some EDir ->
  reauth_clear names (Some es) = inr AppIsADirectoryError.
Proof.
  revert es. induction names as [|n names IH]; intros es Hin He; [destruct Hin|].
  simpl. destruct (String.eqb_spec n name) as [->|Hne].
  - rewrite He. reflexivity.
  - destruct Hin as [E|Hin]; [contradiction|].
    destruct (entry_get (n ++ ".json")%string es) as [[|]|] eqn:Ee; [| reflexivity |].
    + rewrite (IH _ Hin); [reflexivity|].
      rewrite entry_get_remove_other; [exact He|].
      intro E. apply Hne. symmetry. exact (str_app_inv_tail _ _ _ E).
    + rewrite (IH _ Hin He). reflexivity.
Qed.

(** ** Witnesses of the further properties *)

Lemma do_GET_ignores_path_witness :
  origin_form "/favicon.ico" = true /\ plain_prefix "/favicon.ico" = true /\
  origin_form "/callback" = true /\ plain_prefix "/callback" = true /\
  do_GET ("/favicon.ico" ++ String "?" "code=X")%string Pending =
  do_GET ("/callback" ++ String "?" "code=X")%string Pending.
Proof.
  split; [reflexivity|split; [reflexivity|split; [reflexivity|split; [reflexivity|]]]].
  apply do_GET_ignores_path; reflexivity.
Defined.

Lemma do_GET_origin_form_responds_witness :
  origin_form "/callback?error=%FF" = true /\
  url_ok "/callback?error=%FF" = true /\
  exists r, fst (do_GET "/callback?error=%FF" Pending) = Ok r.
Proof.
  split; [reflexivity|]. apply do_GET_origin_form_responds. reflexivity.
Defined.


Lemma serve_settled_stable_witness :
  Resolved "X" None <> Pending /\
  serve ["/callback?code=Y"; "/callback?error=denied"] (Resolved "X" None) = Resolved "X" None.
Proof.
  split; [discriminate|]. apply serve_settled_stable. discriminate.
Defined.

Lemma serve_first_settling_wins_witness :
  serve ["/favicon.ico"] Pending = Pending /\
  snd (do_GET "/callback?code=X&state=s" Pending) <> Pending /\
  serve (["/favicon.ico"] ++ "/callback?code=X&state=s" :: ["/callback?error=late"]) Pending =
  snd (do_GET "/callback?code=X&state=s" Pending).
Proof.
  split; [vm_compute; reflexivity|split; [vm_compute; discriminate|]].
  apply serve_first_settling_wins; [vm_compute; reflexivity|vm_compute; discriminate].
Defined.


Lemma set_tokens_last_write_wins_witness :
  set_tokens tok_abc disk_with_client_info = Ok disk_tokens_and_client_info /\
  set_tokens tok_new disk_tokens_and_client_info = set_tokens tok_new disk_with_client_info.
Proof.
  split; [vm_compute; reflexivity|].
  apply (set_tokens_last_write_wins tok_abc). vm_compute. reflexivity.
Defined.

Lemma ensure_oauth_token_second_call_witness :
  let s := mkState fresh_disk [] in
  let s' := mkState (fst (flow_writes_fresh fresh_disk))
                    [ReceiverCreated; ReceiverStarted; Preflight; ReceiverStopped] in
  ensure_oauth_token flow_writes_fresh "notion" s = (Ok "fresh_tok", s') /\
  ensure_oauth_token flow_discovery_fails "notion" s' = (Ok "fresh_tok", s').
Proof.
  cbv zeta. split; [vm_compute; reflexivity|].
  apply (ensure_oauth_token_second_call flow_writes_fresh _ _ (mkState fresh_disk [])).
  vm_compute. reflexivity.
Defined.

Lemma resolve_env_vars_no_brace_witness :
  mem_char "}" "cost: $5 ${HOME" = false /\
  _resolve_env_vars [("HOME", "/root")] "cost: $5 ${HOME" = "cost: $5 ${HOME".
Proof.
  split; [reflexivity|]. apply resolve_env_vars_no_brace. reflexivity.
Defined.

Lemma resolve_env_vars_subst_witness :
  mem_char "$" "Bearer " = false /\ "TOKEN" <> EmptyString /\ mem_char "}" "TOKEN" = false /\
  _resolve_env_vars [("TOKEN", "${SECRET}"); ("SECRET", "s3")]
    ("Bearer " ++ "${" ++ "TOKEN" ++ String "}" " ${SECRET}")%string =
  ("Bearer " ++ env_get [("TOKEN", "${SECRET}"); ("SECRET", "s3")] "TOKEN" ++
   _resolve_env_vars [("TOKEN", "${SECRET}"); ("SECRET", "s3")] " ${SECRET}")%string.
Proof.
  split; [reflexivity|split; [discriminate|split; [reflexivity|]]].
  apply resolve_env_vars_subst; [reflexivity|discriminate|reflexivity].
Defined.

Lemma load_servers_non_dict_servers_witness :
  dict_get "servers" [("servers", JNull)] = Some JNull /\
  (forall kv, JNull <> JObj kv) /\
  load_servers [] (JObj [("servers", JNull)]) = inr AppAttributeError.
Proof.
  split; [reflexivity|split; [intros kv; discriminate|]].
  apply (load_servers_non_dict_servers [] [("servers", JNull)] JNull);
    [reflexivity|intros kv; discriminate].
Defined.

Lemma load_servers_non_dict_config_witness :
  (forall kv, JNull <> JObj kv) /\
  load_servers [] JNull = inr (AppValueError "Expected config to be a dict, got NoneType").
Proof.
  split; [intros kv; discriminate|]. apply load_servers_non_dict_config. intros kv; discriminate.
Defined.

Lemma load_servers_names_witness :
  let scs := match load_servers config_env (JObj config_yaml) with
             | inl l => l | inr _ => [] end in
  dict_get "servers" config_yaml = Some (JObj servers_yaml) /\
  load_servers config_env (JObj config_yaml) = inl scs /\
  map sc_name scs = ["${NAME}"; "b"].
Proof.
  cbv zeta. split; [reflexivity|split; [vm_compute; reflexivity|]].
  apply (load_servers_names config_env config_yaml servers_yaml); [reflexivity|].
  vm_compute. reflexivity.
Defined.

Lemma connect_memoized_witness :
  connect dial_ok cfg_fs cm_empty = (inl 0, mkConnMgr [("fs", 0)] 1 ["fs"]) /\
  sc_name cfg_fs_http = sc_name cfg_fs /\
  connect dial_refused cfg_fs_http (mkConnMgr [("fs", 0)] 1 ["fs"]) =
    (inl 0, mkConnMgr [("fs", 0)] 1 ["fs"]).
Proof.
  split; [reflexivity|split; [reflexivity|]].
  apply (connect_memoized dial_ok dial_refused cfg_fs cfg_fs_http cm_empty); reflexivity.
Defined.

Lemma connect_failure_not_cached_witness :
  connect dial_refused cfg_fs cm_empty =
    (inr (AppConnectError "connection refused"), mkConnMgr [] 0 ["fs"]) /\
  cm_sessions (mkConnMgr [] 0 ["fs"]) = cm_sessions cm_empty /\
  cm_next (mkConnMgr [] 0 ["fs"]) = cm_next cm_empty /\
  session_get "fs" (cm_sessions (mkConnMgr [] 0 ["fs"])) = None.
Proof.
  split; [reflexivity|].
  apply (connect_failure_not_cached dial_refused cfg_fs cm_empty _ (AppConnectError "connection refused")).
  reflexivity.
Defined.


Lemma connect_after_cleanup_witness :
  cm_wf (mkConnMgr [("fs", 0)] 1 ["fs"]) /\
  cleanup None (mkConnMgr [("fs", 0)] 1 ["fs"]) = inl (mkConnMgr [] 1 ["fs"]) /\
  connect dial_ok cfg_fs (mkConnMgr [] 1 ["fs"]) = (inl 1, mkConnMgr [("fs", 1)] 2 ["fs"; "fs"]) /\
  cm_attempts (mkConnMgr [("fs", 1)] 2 ["fs"; "fs"]) = ["fs"] ++ [sc_name cfg_fs] /\
  (forall n s', In (n, s') [("fs", 0)] -> s' <> 1).
Proof.
  assert (W : cm_wf (mkConnMgr [("fs", 0)] 1 ["fs"])).
  { split; simpl; [repeat constructor; simpl; tauto|].
    intros n s [E|[]]. injection E as _ <-. lia. }
  split; [exact W|split; [reflexivity|split; [reflexivity|]]].
  apply (connect_after_cleanup dial_ok cfg_fs (mkConnMgr [("fs", 0)] 1 ["fs"]) (mkConnMgr [] 1 ["fs"]));
    [exact W|reflexivity|reflexivity].
Defined.

Lemma reauth_clear_directory_fails_witness :
  In "gh" ["fs"; "gh"] /\
  entry_get ("gh" ++ ".json")%string [("fs.json", EFile); ("gh.json", EDir)] = Some EDir /\
  reauth_clear ["fs"; "gh"] (Some [("fs.json", EFile); ("gh.json", EDir)]) = inr AppIsADirectoryError.
Proof.
  split; [simpl; tauto|split; [reflexivity|]].
  apply (reauth_clear_directory_fails _ _ "gh"); [simpl; tauto|reflexivity].
Defined.
